(** * Dolly: the stem-separation pipeline

    A shallow embedding of [src/audioshake.ts] (the AudioShake client),
    [src/upload.ts] (the temporary uploader) and of the command-line script
    that imports both (named index.ts below), with the properties of the
    polling state machine and of the pipeline's failure handling.

    Conventions of the embedding:
    - JavaScript strings are [string]s, one character for each code unit;
      letters are the ASCII letters; [undefined] is [None].
    - Times are milliseconds in [Z], as [Date.now()] gives them; the time an
      awaited operation takes is data of the environment (an [N], so the
      clock never runs backwards).
    - An [async] function is a computation in the monad [M]: it reads and
      advances the clock, appends to the trace of observable effects
      (conversions, network requests, timers), and ends by returning,
      throwing, or leaving the process.
    - Console output ([console.log], [console.error],
      [process.stdout.write]) is advisory and is not part of the trace. *)

From Stdlib Require Import ZArith NArith List String Ascii Bool Lia.
From Stdlib Require Import DecimalString.
Import ListNotations.
Open Scope string_scope.
Open Scope Z_scope.

(* ================================================================== *)
(** ** JavaScript strings *)

Module Js.

(** Truthiness of a value of type [string | undefined]: [undefined] and the
    empty string are falsy. *)
Definition truthy (v : option string) : bool :=
  match v with
  | None => false
  | Some s => negb (s =? "")%string
  end.

(** [s.startsWith(p)]. *)
Definition startsWith (s p : string) : bool := String.prefix p s.

(** [s.replace(pat, rep)] for a string pattern: the first occurrence of
    [pat] in [s] is replaced, the rest of [s] is kept.  ([rep] holds no [$]
    in this program, so it is inserted as it is.) *)
Fixpoint replace (pat rep s : string) : string :=
  if String.prefix pat s
  then rep ++ String.substring (String.length pat)
                               (String.length s - String.length pat) s
  else match s with
       | EmptyString => EmptyString
       | String c s' => String c (replace pat rep s')
       end.

Definition lower_char (c : ascii) : ascii :=
  let n := N_of_ascii c in
  if ((65 <=? n) && (n <=? 90))%N then ascii_of_N (n + 32) else c.

(** [s.toLowerCase()]. *)
Fixpoint toLowerCase (s : string) : string :=
  match s with
  | EmptyString => EmptyString
  | String c s' => String (lower_char c) (toLowerCase s')
  end.

Definition is_space (c : ascii) : bool :=
  let n := N_of_ascii c in
  ((n =? 32) || ((9 <=? n) && (n <=? 13)))%N.

Fixpoint trimStart (s : string) : string :=
  match s with
  | EmptyString => EmptyString
  | String c s' => if is_space c then trimStart s' else s
  end.

Fixpoint trimEnd (s : string) : string :=
  match s with
  | EmptyString => EmptyString
  | String c s' =>
      match trimEnd s' with
      | EmptyString => if is_space c then EmptyString else String c EmptyString
      | t => String c t
      end
  end.

(** [s.trim()]. *)
Definition trim (s : string) : string := trimEnd (trimStart s).

(** [`${n}`] for a non-negative integer. *)
Definition of_number (n : N) : string :=
  NilZero.string_of_uint (N.to_uint n).

(** [a || b] on [string | undefined] with a string default. *)
Definition or_else (a : option string) (b : string) : string :=
  if truthy a then match a with Some s => s | None => b end else b.

(** [arr.at(-1)]. *)
Definition at_last {A} (l : list A) : option A :=
  match rev l with
  | [] => None
  | x :: _ => Some x
  end.

End Js.

(* ================================================================== *)
(** ** node:path *)

(** The functions of [node:path] the program imports for its decisions. *)
Class NodePath := { extname : string -> string }.

Module Posix.

(** [path.posix.extname], as Node implements it: one scan of the path from
    its end, over the variables of the original. *)
Record Scan := mkScan {
  startDot : Z;
  startPart : Z;
  end_ : Z;
  matchedSlash : bool;
  preDotState : Z
}.

Definition scan0 : Scan := mkScan (-1) 0 (-1) true 0.

Fixpoint scan (rev_codes : list ascii) (i : Z) (st : Scan) : Scan :=
  match rev_codes with
  | [] => st
  | code :: more =>
      if Ascii.eqb code "/" then
        if negb (matchedSlash st)
        then mkScan (startDot st) (i + 1) (end_ st) (matchedSlash st)
                    (preDotState st)
        else scan more (i - 1) st
      else
        let st1 :=
          if end_ st =? -1
          then mkScan (startDot st) (startPart st) (i + 1) false
                      (preDotState st)
          else st in
        let st2 :=
          if Ascii.eqb code "."
          then if startDot st1 =? -1
               then mkScan i (startPart st1) (end_ st1) (matchedSlash st1)
                           (preDotState st1)
               else if negb (preDotState st1 =? 1)
                    then mkScan (startDot st1) (startPart st1) (end_ st1)
                                (matchedSlash st1) 1
                    else st1
          else if negb (startDot st1 =? -1)
               then mkScan (startDot st1) (startPart st1) (end_ st1)
                           (matchedSlash st1) (-1)
               else st1 in
        scan more (i - 1) st2
  end.

Definition extname (path : string) : string :=
  let st := scan (rev (list_ascii_of_string path))
                 (Z.of_nat (String.length path) - 1) scan0 in
  if (startDot st =? -1) || (end_ st =? -1) || (preDotState st =? 0)
     || ((preDotState st =? 1) && (startDot st =? end_ st - 1)
         && (startDot st =? startPart st + 1))
  then ""
  else String.substring (Z.to_nat (startDot st))
                        (Z.to_nat (end_ st - startDot st)) path.

End Posix.

#[export] Instance posix_path : NodePath := {| extname := Posix.extname |}.

(* ================================================================== *)
(** ** index.ts: the supported formats *)

(** [SUPPORTED_AUDIO_EXTENSIONS]: a [Set] of strings, in insertion order. *)
Definition SUPPORTED_AUDIO_EXTENSIONS : list string :=
  [".mp3"; ".wav"; ".flac"; ".aac"; ".ogg"; ".m4a"; ".wma"; ".aiff";
   ".alac"; ".opus"].

(** [Set.prototype.has] on a set of strings. *)
Definition set_has (set : list string) (x : string) : bool :=
  existsb (String.eqb x) set.

Definition isSupportedAudioFile `{NodePath} (filePath : string) : bool :=
  let extension := Js.toLowerCase (extname filePath) in
  set_has SUPPORTED_AUDIO_EXTENSIONS extension.

(* ================================================================== *)
(** ** Effects: clock, trace, exceptions, process exit *)

(** A thrown [new Error(message)]. *)
Inductive JsError := Error (message : string).

Definition message (e : JsError) : string :=
  match e with Error m => m end.

(** [StemResult]: [urls] is a [Record<string, string>], kept as the list of
    its entries. *)
Record StemResult := mkStemResult {
  model : string;
  urls : list (string * string)
}.

Module Task.

(** The [status] of a [TaskStatus]. *)
Inductive Status := pending | processing | completed | failed | cancelled.

Definition eqb (a b : Status) : bool :=
  match a, b with
  | pending, pending | processing, processing | completed, completed
  | failed, failed | cancelled, cancelled => true
  | _, _ => false
  end.

(** [TaskStatus]: [stems?] and [error?] are optional fields. *)
Record TaskStatus := mk {
  id : string;
  status : Status;
  stems : option (list StemResult);
  error : option string
}.

(** One element of [targets] in the body of the task request. *)
Record Target := mkTarget {
  target_model : string;
  formats : list string
}.

(** The body of the task request. *)
Record Body := mkBody {
  url : string;
  targets : list Target
}.

(** The JSON of the answer to the task request. *)
Record Created := mkCreated { created_id : string }.

End Task.

Module Http.

(** What [fetch] resolved with: the status code, the body as [text()] gives
    it and as [json()] gives it (typed by the cast at the call site). *)
Record Response (A : Type) := mkResponse {
  status : N;
  text : string;
  json : A
}.
Arguments mkResponse {A}.
Arguments status {A}.
Arguments text {A}.
Arguments json {A}.

(** [response.ok]: the status is in the range 200-299. *)
Definition ok {A} (r : Response A) : bool :=
  ((200 <=? status r) && (status r <=? 299))%N.

(** An awaited [fetch]: rejected (a network failure) or resolved. *)
Inductive Fetched (A : Type) :=
| Rejected (reason : string)
| Resolved (response : Response A).
Arguments Rejected {A}.
Arguments Resolved {A}.

End Http.

(** What the run does to the outside, in order. *)
Inductive Event :=
| EvHelp                                          (* program.help() *)
| EvConvert (inputPath outputPath : string)       (* ffmpeg(..).save(..) *)
| EvUpload (endpoint filePath : string)           (* POST of the file *)
| EvCreateTask (endpoint apiKey : string) (body : Task.Body)  (* POST *)
| EvGetStatus (endpoint apiKey : string)          (* GET *)
| EvTimer (ms : Z).                               (* setTimeout(.., ms) *)

(** The clock ([Date.now()]) and the events so far, each with the time at
    which it started. *)
Record State := mkState {
  now : Z;
  trace : list (Z * Event)
}.

(** How a computation ends.  [Polling]: the recorded answers of the remote
    service are used up and the polling loop is still running. *)
Inductive Res (A : Type) :=
| Returned (a : A)
| Threw (e : JsError)
| Exited (code : Z)
| Polling.
Arguments Returned {A}.
Arguments Threw {A}.
Arguments Exited {A}.
Arguments Polling {A}.

Definition M (A : Type) : Type := State -> Res A * State.

Definition ret {A} (a : A) : M A := fun s => (Returned a, s).

Definition bind {A B} (m : M A) (k : A -> M B) : M B :=
  fun s =>
    match m s with
    | (Returned a, s') => k a s'
    | (Threw e, s') => (Threw e, s')
    | (Exited c, s') => (Exited c, s')
    | (Polling, s') => (Polling, s')
    end.

Notation "x <- m ;; k" := (bind m (fun x => k))
  (at level 61, m at next level, right associativity).
Notation "m ;;; k" := (bind m (fun _ => k))
  (at level 61, right associativity).

(** [throw e]. *)
Definition throw {A} (e : JsError) : M A := fun s => (Threw e, s).

(** [process.exit(code)]. *)
Definition process_exit {A} (code : Z) : M A := fun s => (Exited code, s).

(** [try { m } catch (error) { h error }]. *)
Definition try_catch {A} (m : M A) (h : JsError -> M A) : M A :=
  fun s =>
    match m s with
    | (Threw e, s') => h e s'
    | r => r
    end.

(** [Date.now()]. *)
Definition date_now : M Z := fun s => (Returned (now s), s).

Definition emit (e : Event) : M unit :=
  fun s => (Returned tt, mkState (now s) (trace s ++ [(now s, e)])).

Definition elapse (d : Z) : M unit :=
  fun s => (Returned tt, mkState (now s + d) (trace s)).

(** [await new Promise(resolve => setTimeout(resolve, ms))]: the timer is
    set, and the caller resumes [ms] later or [lag] after that. *)
Definition sleep (ms : Z) (lag : N) : M unit :=
  emit (EvTimer ms) ;;; elapse (ms + Z.of_N lag).

(** [await fetch(..)], the request being the event [e]: the answer comes
    [latency] later; a rejected [fetch] throws. *)
Definition fetch {A} (e : Event) (latency : N) (answer : Http.Fetched A)
  : M (Http.Response A) :=
  emit e ;;;
  elapse (Z.of_N latency) ;;;
  match answer with
  | Http.Rejected reason => throw (Error reason)
  | Http.Resolved r => ret r
  end.

(* ================================================================== *)
(** ** audioshake.ts *)

Definition AUDIOSHAKE_API_BASE : string := "https://api.audioshake.ai/tasks".

(** One round of the polling loop as the remote service and the runtime
    decide it: how late the timer fires, how long the GET takes, and what
    it answers. *)
Record Poll := mkPoll {
  timer_lag : N;
  latency : N;
  answer : Http.Fetched Task.TaskStatus
}.

(** The remote service during one call of [separateStems]. *)
Record Remote := mkRemote {
  create_latency : N;
  create_answer : Http.Fetched Task.Created;
  polls : list Poll
}.

Definition timeout : Z := 600000.
Definition pollInterval : Z := 5000.

(** The loop [while (true) { .. }] of [separateStems], one iteration for
    each recorded round. *)
Fixpoint poll_loop (id apiKey : string) (startTime : Z) (rounds : list Poll)
  : M (list StemResult) :=
  match rounds with
  | [] => fun s => (Polling, s)
  | p :: rest =>
      sleep pollInterval (timer_lag p) ;;;
      statusResponse <-
        fetch (EvGetStatus (AUDIOSHAKE_API_BASE ++ "/" ++ id) apiKey)
              (latency p) (answer p) ;;
      if negb (Http.ok statusResponse) then
        let errorText := Http.text statusResponse in
        throw (Error ("Failed to check task status ("
                      ++ Js.of_number (Http.status statusResponse)
                      ++ "): " ++ errorText))
      else
        let status := Http.json statusResponse in
        (* [status.status === 'completed' && status.stems]: [status.stems]
           is an array or [undefined], and every array is truthy. *)
        match Task.status status, Task.stems status with
        | Task.completed, Some stems => ret stems
        | _, _ =>
            if Task.eqb (Task.status status) Task.failed then
              throw (Error ("Stem separation failed: "
                            ++ Js.or_else (Task.error status) "Unknown error"))
            else
              t <- date_now ;;
              if t - startTime >? timeout then
                throw (Error "Task timeout after 10 minutes")
              else
                poll_loop id apiKey startTime rest
        end
  end.

(** The default value of the parameter [stems]. *)
Definition default_stems : list string := ["vocals"; "instrumental"].

Definition separateStems (remote : Remote) (audioUrl apiKey : string)
    (stems : option (list string)) : M (list StemResult) :=
  let stems := match stems with Some l => l | None => default_stems end in
  if negb (Js.startsWith audioUrl "https://") then
    throw (Error "AudioShake requires HTTPS URLs")
  else
    let body :=
      Task.mkBody audioUrl
        (map (fun model => Task.mkTarget model ["wav"]) stems) in
    createResponse <-
      fetch (EvCreateTask AUDIOSHAKE_API_BASE apiKey body)
            (create_latency remote) (create_answer remote) ;;
    if negb (Http.ok createResponse) then
      let errorText := Http.text createResponse in
      throw (Error ("AudioShake API error ("
                    ++ Js.of_number (Http.status createResponse)
                    ++ "): " ++ errorText))
    else
      let id := Task.created_id (Http.json createResponse) in
      startTime <- date_now ;;
      poll_loop id apiKey startTime (polls remote).

(* ================================================================== *)
(** ** upload.ts and index.ts *)

(** [v] as a string, where a guard has made sure that it is one. *)
Definition str (v : option string) : string :=
  match v with Some s => s | None => "" end.

(** [if (b) { m }]. *)
Definition when (b : bool) (m : M unit) : M unit :=
  if b then m else ret tt.

(** What one run of the program finds around it. *)
Record World := mkWorld {
  (** [Date.now()] when the program starts *)
  clock0 : Z;
  (** [options.file], [options.song] and [program.args] after parsing *)
  opt_file : option string;
  opt_song : option string;
  args : list string;
  (** [existsSync] *)
  existsSync : string -> bool;
  (** [join(process.cwd(), "converted", `${inputBasename}.wav`)] for an
      input path *)
  converted_path : string -> string;
  (** the transcoding engine on an input and an output path: how long it
      runs, and the message of its [error] event ([None]: it ends well) *)
  ffmpeg : string -> string -> N * option string;
  (** the message of the exception of [statSync] or [readFileSync] on a
      path ([None]: the file is read) *)
  read_error : string -> option string;
  (** the hosting service *)
  upload_latency : N;
  upload_answer : Http.Fetched unit;
  (** [process.env.AUDIOSHAKE_API_KEY] *)
  env_AUDIOSHAKE_API_KEY : option string;
  (** the stem-separation service *)
  remote : Remote
}.

(** upload.ts *)
Definition uploadFileTemporary (w : World) (filePath : string) : M string :=
  match read_error w filePath with
  | Some reason => throw (Error reason)
  | None =>
      try_catch
        (response <-
           fetch (EvUpload "https://0x0.st" filePath)
                 (upload_latency w) (upload_answer w) ;;
         if negb (Http.ok response) then
           let errorText := Http.text response in
           throw (Error ("Upload failed ("
                         ++ Js.of_number (Http.status response)
                         ++ "): " ++ errorText))
         else
           let url := Js.trim (Http.text response) in
           ret url)
        (fun error =>
           throw (Error ("Failed to upload file: " ++ message error)))
  end.

(** index.ts, [convertToWav]: the promise resolves with the output path
    when the engine ends, and rejects with its error (a failure to create
    the output directory rejects it in the same way, and counts as one). *)
Definition convertToWav (w : World) (inputPath : string) : M string :=
  let outputPath := converted_path w inputPath in
  emit (EvConvert inputPath outputPath) ;;;
  elapse (Z.of_N (fst (ffmpeg w inputPath outputPath))) ;;;
  match snd (ffmpeg w inputPath outputPath) with
  | Some reason => throw (Error reason)
  | None => ret outputPath
  end.

(** [program.help()]: prints the help and leaves with status 0. *)
Definition program_help : M unit :=
  emit EvHelp ;;; process_exit 0.

(** index.ts: [options.file ?? args.at(-1)]. *)
Definition selected_file (w : World) : option string :=
  match opt_file w with
  | Some f => Some f
  | None => Js.at_last (args w)
  end.

(** index.ts, from the parsed options to the path to convert. *)
Definition validate_input `{NodePath} (w : World) : M string :=
  let filePath := selected_file w in
  let songName := opt_song w in
  when (negb (Js.truthy filePath) && negb (Js.truthy songName))
       program_help ;;;
  when (Js.truthy filePath && negb (existsSync w (str filePath)))
       (process_exit 1) ;;;
  when (Js.truthy filePath && negb (isSupportedAudioFile (str filePath)))
       (process_exit 1) ;;;
  ret (if negb (Js.truthy filePath) then "./downloaded/song.mp3"
       else str filePath).

(** index.ts: "Convert the audio file to 24-bit WAV". *)
Definition convert_stage (w : World) (filePath : string) : M string :=
  try_catch (convertToWav w filePath) (fun error => process_exit 1).

(** index.ts: "validate and upgrade if needed". *)
Definition upgrade_scheme (audioUrl : string) : string :=
  if Js.startsWith audioUrl "http://"
  then Js.replace "http://" "https://" audioUrl
  else audioUrl.

(** index.ts: "Upload the converted file to temporary hosting". *)
Definition upload_stage (w : World) (wavPath : string) : M string :=
  try_catch
    (audioUrl <- uploadFileTemporary w wavPath ;;
     let audioUrl := upgrade_scheme audioUrl in
     if negb (Js.startsWith audioUrl "https://") then
       throw (Error "Invalid URL format - AudioShake requires HTTPS URLs")
     else ret audioUrl)
    (fun error => process_exit 1).

(** index.ts: the check of [AUDIOSHAKE_API_KEY]. *)
Definition key_check (w : World) : M string :=
  let AUDIOSHAKE_API_KEY := env_AUDIOSHAKE_API_KEY w in
  when (negb (Js.truthy AUDIOSHAKE_API_KEY)) (process_exit 1) ;;;
  ret (str AUDIOSHAKE_API_KEY).

(** index.ts: "Perform stem separation". *)
Definition separation_stage (w : World) (audioUrl apiKey : string) : M unit :=
  try_catch
    (stems <- separateStems (remote w) audioUrl apiKey None ;;
     ret tt)
    (fun error => process_exit 1).

(** index.ts, the whole script. *)
Definition main `{NodePath} (w : World) : M unit :=
  filePath <- validate_input w ;;
  wavPath <- convert_stage w filePath ;;
  audioUrl <- upload_stage w wavPath ;;
  AUDIOSHAKE_API_KEY <- key_check w ;;
  separation_stage w audioUrl AUDIOSHAKE_API_KEY.

(** The state in which the script starts. *)
Definition initial (w : World) : State := mkState (clock0 w) [].

(** One run of the program. *)
Definition run_main `{NodePath} (w : World) : Res unit * State :=
  main w (initial w).

(** The exit status of the process: 0 when the script runs to its end, 1
    for an uncaught exception, the argument of [process.exit] otherwise;
    none while it still polls. *)
Definition exit_status (r : Res unit) : option Z :=
  match r with
  | Returned _ => Some 0
  | Threw _ => Some 1
  | Exited code => Some code
  | Polling => None
  end.

(** *** Reading traces *)

(** The events of a trace, without their times. *)
Definition events (s : State) : list Event := map snd (trace s).

(** A poll of the task status. *)
Definition is_get (e : Event) : bool :=
  match e with EvGetStatus _ _ => true | _ => false end.

(** A request to the stem-separation service. *)
Definition is_task_request (e : Event) : bool :=
  match e with
  | EvCreateTask _ _ _ | EvGetStatus _ _ => true
  | _ => false
  end.

(** An event of one of the three stages. *)
Definition is_stage (e : Event) : bool :=
  match e with
  | EvConvert _ _ | EvUpload _ _ | EvCreateTask _ _ _ | EvGetStatus _ _ => true
  | _ => false
  end.

(** The number of polls (GET requests) in a trace. *)
Definition poll_count (s : State) : nat :=
  List.length (filter is_get (events s)).

(* ================================================================== *)
(** ** Notions for the statements *)

(** *** The rounds of the polling loop *)

(** The URL polled for the task [id]. *)
Definition status_url (id : string) : string :=
  AUDIOSHAKE_API_BASE ++ "/" ++ id.

(** The state when the answer of round [p] has arrived: the timer was set
    at [now s], the GET left when it fired. *)
Definition arrived (id apiKey : string) (p : Poll) (s : State) : State :=
  mkState
    (now s + (pollInterval + Z.of_N (timer_lag p)) + Z.of_N (latency p))
    (trace s ++
     [(now s, EvTimer pollInterval);
      (now s + (pollInterval + Z.of_N (timer_lag p)),
       EvGetStatus (status_url id) apiKey)]).

(** What one round decides, once its answer is there. *)
Inductive Verdict :=
| Done (r : Res (list StemResult))
| Again.

(** The error of the exhausted budget. *)
Definition TIMEOUT_ERROR : JsError := Error "Task timeout after 10 minutes".

(** The body of the loop after its two awaits, as a function of the
    answer and of the time [t] at which it is there. *)
Definition verdict (startTime : Z) (p : Poll) (t : Z) : Verdict :=
  match answer p with
  | Http.Rejected reason => Done (Threw (Error reason))
  | Http.Resolved r =>
      if negb (Http.ok r) then
        Done (Threw (Error ("Failed to check task status ("
                            ++ Js.of_number (Http.status r)
                            ++ "): " ++ Http.text r)))
      else
        match Task.status (Http.json r), Task.stems (Http.json r) with
        | Task.completed, Some stems => Done (Returned stems)
        | _, _ =>
            if Task.eqb (Task.status (Http.json r)) Task.failed then
              Done (Threw (Error ("Stem separation failed: "
                                  ++ Js.or_else (Task.error (Http.json r))
                                                "Unknown error")))
            else if t - startTime >? timeout then Done (Threw TIMEOUT_ERROR)
            else Again
        end
  end.

(** The state when the task request has been answered; [startTime] is the
    clock of this state. *)
Definition submitted (remote : Remote) (audioUrl apiKey : string)
    (stems : option (list string)) (s : State) : State :=
  mkState
    (now s + Z.of_N (create_latency remote))
    (trace s ++
     [(now s,
       EvCreateTask AUDIOSHAKE_API_BASE apiKey
         (Task.mkBody audioUrl
            (map (fun model => Task.mkTarget model ["wav"])
                 (match stems with Some l => l | None => default_stems end))))]).

(** The state after the given rounds, when none of them ends the loop. *)
Fixpoint after_rounds (id apiKey : string) (rounds : list Poll) (s : State)
  : State :=
  match rounds with
  | [] => s
  | p :: rest => after_rounds id apiKey rest (arrived id apiKey p s)
  end.

(** None of the given rounds ends the loop that started at [startTime]. *)
Fixpoint all_again (id apiKey : string) (startTime : Z) (rounds : list Poll)
    (s : State) : bool :=
  match rounds with
  | [] => true
  | p :: rest =>
      match verdict startTime p (now (arrived id apiKey p s)) with
      | Again => all_again id apiKey startTime rest (arrived id apiKey p s)
      | Done _ => false
      end
  end.

(** A stretch of a trace made of polls only: each poll is a timer of
    [pollInterval] set at or after [from], and a GET that leaves at least
    [pollInterval] after the timer was set. *)
Fixpoint paced (from : Z) (tr : list (Z * Event)) : Prop :=
  match tr with
  | [] => True
  | (t1, EvTimer ms) :: (t2, EvGetStatus _ _) :: more =>
      from <= t1 /\ ms = pollInterval /\ t1 + pollInterval <= t2 /\
      paced t2 more
  | _ => False
  end.

(** The answer of round [p] has a 2xx status and the task status [st]. *)
Definition answers_status (st : Task.Status) (p : Poll) : bool :=
  match answer p with
  | Http.Rejected _ => false
  | Http.Resolved r => Http.ok r && Task.eqb (Task.status (Http.json r)) st
  end.

(** How long round [p] takes, from setting its timer to its answer. *)
Definition duration (p : Poll) : Z :=
  pollInterval + Z.of_N (timer_lag p) + Z.of_N (latency p).

(** How long the given rounds take together. *)
Definition total_duration (rounds : list Poll) : Z :=
  fold_right (fun p acc => duration p + acc) 0 rounds.

(** The events of [n] polls of the task [id]. *)
Definition poll_events (id apiKey : string) (n : nat) : list Event :=
  List.concat (repeat [EvTimer pollInterval; EvGetStatus (status_url id) apiKey] n).

(** *** The pipeline *)

(** The supported extensions as the help text names them. *)
Definition supported_formats : list string :=
  ["mp3"; "wav"; "flac"; "aac"; "ogg"; "m4a"; "wma"; "aiff"; "alac"; "opus"].

(** The requests to the stem-separation service in a trace. *)
Definition task_requests (s : State) : list Event :=
  filter is_task_request (events s).

(** The conversions and uploads in a trace. *)
Definition earlier_stages (s : State) : list Event :=
  filter (fun e => is_stage e && negb (is_task_request e)) (events s).

(** *** Sample data *)

(** A stem result. *)
Definition vocals : StemResult :=
  mkStemResult "vocals" [("wav", "https://cdn.example/vocals.wav")].

(** An answer with status code 200 carrying the given task status. *)
Definition answers (st : Task.Status) (stems : option (list StemResult))
    (error : option string) : Http.Fetched Task.TaskStatus :=
  Http.Resolved (Http.mkResponse 200 "" (Task.mk "t1" st stems error)).

(** A round with a punctual timer and an immediate answer. *)
Definition round (st : Task.Status) (stems : option (list StemResult))
    (error : option string) : Poll :=
  mkPoll 0 0 (answers st stems error).

(** The task request is accepted at once, with the id [t1]. *)
Definition created : Http.Fetched Task.Created :=
  Http.Resolved (Http.mkResponse 200 "" (Task.mkCreated "t1")).

(** The clock at 0, nothing done yet. *)
Definition at0 : State := mkState 0 [].

(** A line feed. *)
Definition LF : string := String (ascii_of_N 10) "".

(** A run of the program: the file is there, the conversion takes a
    second, the host answers after 200 ms with [uploaded] and a line feed,
    the task is done at the first poll. *)
Definition a_world (uploaded : string) (key : option string) : World :=
  mkWorld 0 (Some "song.mp3") None []
    (fun _ => true)
    (fun _ => "/work/converted/song.wav")
    (fun _ _ => (1000%N, None))
    (fun _ => None)
    200 (Http.Resolved (Http.mkResponse 200 (uploaded ++ LF) tt))
    key
    (mkRemote 0 created [round Task.completed (Some [vocals]) None]).

(** The state of that run when the upload has returned. *)
Definition uploaded_state : State :=
  mkState 1200
    [(0, EvConvert "song.mp3" "/work/converted/song.wav");
     (1000, EvUpload "https://0x0.st" "/work/converted/song.wav")].

(* ================================================================== *)
(** ** Notions for the further properties *)

(** *** audioshake.ts *)

(** The condition under which the loop goes on after the round [p], whose
    answer is there at time [t]: a 2xx answer, a status that is neither
    "failed" nor "completed" with stems, and a budget that is not
    exceeded. *)
Definition keeps_polling (startTime : Z) (p : Poll) (t : Z) : bool :=
  match answer p with
  | Http.Rejected _ => false
  | Http.Resolved r =>
      Http.ok r
      && negb (Task.eqb (Task.status (Http.json r)) Task.failed)
      && negb (Task.eqb (Task.status (Http.json r)) Task.completed
               && match Task.stems (Http.json r) with
                  | Some _ => true
                  | None => false
                  end)
      && (t - startTime <=? timeout)
  end.

(** The id of the task that the service created, if it answered. *)
Definition task_id (remote : Remote) : string :=
  match create_answer remote with
  | Http.Rejected _ => ""
  | Http.Resolved c => Task.created_id (Http.json c)
  end.

(** The task request is accepted: answered, with a 2xx status. *)
Definition accepted (remote : Remote) : bool :=
  match create_answer remote with
  | Http.Rejected _ => false
  | Http.Resolved c => Http.ok c
  end.

(** The most polls one call can make: one every [pollInterval] while the
    budget lasts, and the one that finds it exceeded. *)
Definition max_polls : nat := 121.

(** *** upload.ts *)



(** The state when the hosting service has answered the upload. *)
Definition after_upload (w : World) (filePath : string) (s : State) : State :=
  mkState (now s + Z.of_N (upload_latency w))
          (trace s ++ [(now s, EvUpload "https://0x0.st" filePath)]).

(** *** index.ts *)

(** The state when the conversion of [filePath] has ended. *)
Definition after_conversion (w : World) (filePath : string) (s : State)
  : State :=
  mkState
    (now s + Z.of_N (fst (ffmpeg w filePath (converted_path w filePath))))
    (trace s ++ [(now s, EvConvert filePath (converted_path w filePath))]).

(** The path that is converted when only a song name is given. *)
Definition DOWNLOADED_SONG : string := "./downloaded/song.mp3".

(** The targets of the task request of the pipeline. *)
Definition default_targets : list Task.Target :=
  [Task.mkTarget "vocals" ["wav"]; Task.mkTarget "instrumental" ["wav"]].

(** How the script ends for a given end of [separateStems]. *)
Definition script_end (res : Res (list StemResult)) : Res unit :=
  match res with
  | Returned _ => Returned tt
  | Threw _ => Exited 1
  | Exited code => Exited code
  | Polling => Polling
  end.

(** The script from the conversion on, for the path that passed the
    validation. *)
Definition stages (w : World) (filePath : string) : M unit :=
  wavPath <- convert_stage w filePath ;;
  audioUrl <- upload_stage w wavPath ;;
  AUDIOSHAKE_API_KEY <- key_check w ;;
  separation_stage w audioUrl AUDIOSHAKE_API_KEY.

(** *** index.ts: the name of the program *)

(** What [deriveInvocationCommand] reads of the process and of the file
    system, and the functions of [node:path] it calls. *)
Record Process := mkProcess {
  (** [process.env.npm_lifecycle_script] and [process.env._] *)
  env_npm_lifecycle_script : option string;
  env_underscore : option string;
  (** [process.argv], [process.execPath] and [process.execArgv] *)
  argv : list string;
  proc_execPath : option string;
  proc_execArgv : option (list string);
  (** [isAbsolute], [relative(process.cwd(), p)] and [basename] *)
  isAbsolute : string -> bool;
  relative_from_cwd : string -> string;
  basename : string -> string;
  (** [existsSync], and [statSync(p).mode] ([None]: [statSync] throws) *)
  fs_existsSync : string -> bool;
  stat_mode : string -> option Z
}.

Definition formatScriptPath (pr : Process) (scriptPath : string) : string :=
  if negb (Js.truthy (Some scriptPath)) then scriptPath
  else
    let relativePath := relative_from_cwd pr scriptPath in
    if isAbsolute pr scriptPath
       && (Js.truthy (Some relativePath)
           && negb (Js.startsWith relativePath ".."))
    then if Js.startsWith relativePath "." then relativePath
         else "./" ++ relativePath
    else scriptPath.

(** [s.includes(sub)]. *)
Fixpoint includes (s sub : string) : bool :=
  String.prefix sub s
  || match s with
     | EmptyString => false
     | String _ s' => includes s' sub
     end.

Definition is_letter (c : ascii) : bool :=
  let n := N_of_ascii c in
  (((65 <=? n) && (n <=? 90)) || ((97 <=? n) && (n <=? 122)))%N.

(** [/ts-node(?:$|[^a-z])/i] matches at the start of [s]: the seven
    characters in any case, then the end of the string or a character
    that is not a letter. *)
Definition ts_node_here (s : string) : bool :=
  (Js.toLowerCase (String.substring 0 7 s) =? "ts-node")%string
  && match String.get 7 s with
     | None => true
     | Some c => negb (is_letter c)
     end.

(** [/ts-node(?:$|[^a-z])/i.test(s)]. *)
Fixpoint matches_ts_node (s : string) : bool :=
  ts_node_here s
  || match s with
     | EmptyString => false
     | String _ s' => matches_ts_node s'
     end.

Definition deriveInvocationCommand (pr : Process) : string :=
  let npmScript := env_npm_lifecycle_script pr in
  if Js.truthy npmScript then str npmScript
  else
    let scriptPath := nth_error (argv pr) 1 in
    let formattedScriptPath :=
      if Js.truthy scriptPath
      then Some (formatScriptPath pr (str scriptPath)) else None in
    let execPath :=
      match proc_execPath pr with          (* execPath ?? argv[0] ?? "" *)
      | Some e => e
      | None => match nth_error (argv pr) 0 with
                | Some a => a
                | None => ""
                end
      end in
    let execArgs :=
      match proc_execArgv pr with Some l => l | None => [] end in
    let envCommand := env_underscore pr in
    if Js.truthy envCommand && Js.truthy formattedScriptPath
       && includes (str envCommand) (str formattedScriptPath)
    then str envCommand
    else if Js.truthy envCommand && Js.truthy formattedScriptPath
            && matches_ts_node (str envCommand)
    then "ts-node " ++ str formattedScriptPath
    else if Js.truthy envCommand && negb (Js.truthy formattedScriptPath)
            && negb (str envCommand =? execPath)%string
    then str envCommand
    else if Js.truthy scriptPath && Js.truthy formattedScriptPath
            && fs_existsSync pr (str scriptPath)
            && match stat_mode pr (str scriptPath) with
               | Some mode => negb (Z.land mode 73 =? 0)   (* 0o111 *)
               | None => false
               end
    then str formattedScriptPath
    else
      let execName :=
        if Js.truthy (Some execPath) then basename pr execPath else "" in
      let parts :=
        filter Js.truthy
          (Some (if Js.truthy (Some execName) then execName else execPath)
           :: map Some execArgs ++ [formattedScriptPath]) in
      if (0 <? List.length parts)%nat
      then String.concat " " (map str parts)
      else match formattedScriptPath with Some f => f | None => "node" end.

(** *** The script that only validates its input *)

(** The last part of the source file: the options are checked and the
    script ends. *)
Definition validation_script `{NodePath} (w : World) : M unit :=
  let filePath := selected_file w in
  let songName := opt_song w in
  when (negb (Js.truthy filePath) && negb (Js.truthy songName))
       program_help ;;;
  when (negb (Js.truthy filePath)) (process_exit 1) ;;;
  when (negb (existsSync w (str filePath))) (process_exit 1) ;;;
  when (negb (isSupportedAudioFile (str filePath))) (process_exit 1).

(* ================================================================== *)
(** ** Properties *)

(** *** Strings and paths *)

Example extname_examples :
  Posix.extname "a/b/song.MP3" = ".MP3" /\
  Posix.extname ".mp3" = "" /\
  Posix.extname "x.tar.gz/" = ".gz" /\
  Posix.extname "a.b/c" = "" /\
  Posix.extname "file." = "." /\
  Posix.extname ".." = "" /\
  Posix.extname "a..b" = ".b".
Proof. repeat split; reflexivity. Qed.

Example isSupportedAudioFile_examples :
  isSupportedAudioFile "a/b/song.MP3" = true /\
  isSupportedAudioFile "take 1.Flac" = true /\
  isSupportedAudioFile "song.txt" = false /\
  isSupportedAudioFile "mp3" = false /\
  isSupportedAudioFile ".mp3" = false.
Proof. repeat split; reflexivity. Qed.

Example replace_first_occurrence :
  Js.replace "http://" "https://" "http://0x0.st/http://a"
  = "https://0x0.st/http://a".
Proof. reflexivity. Qed.

Example trim_example :
  Js.trim ("  https://0x0.st/a.wav " ++ LF) = "https://0x0.st/a.wav".
Proof. reflexivity. Qed.

Example of_number_examples :
  Js.of_number 404 = "404" /\ Js.of_number 0 = "0".
Proof. split; reflexivity. Qed.

(** *** The polling loop *)

(** The loop, round by round. *)
Lemma poll_loop_round (id apiKey : string) (startTime : Z) (p : Poll)
    (rest : list Poll) (s : State) :
  poll_loop id apiKey startTime (p :: rest) s =
  match verdict startTime p (now (arrived id apiKey p s)) with
  | Done r => (r, arrived id apiKey p s)
  | Again => poll_loop id apiKey startTime rest (arrived id apiKey p s)
  end.
Proof.
  unfold verdict, arrived, status_url.
  cbn [poll_loop].
  unfold bind, sleep, fetch, emit, elapse, bind, throw, ret, date_now.
  cbn [now trace].
  rewrite <- app_assoc. cbn [app].
  destruct (answer p) as [reason | r]; [reflexivity |].
  destruct (negb (Http.ok r)); [reflexivity |].
  destruct (Task.status (Http.json r)), (Task.stems (Http.json r));
    cbn [Task.eqb now]; try reflexivity;
    match goal with
    | |- context [?a >? ?b] => destruct (a >? b); reflexivity
    end.
Qed.

Lemma poll_count_arrived (id apiKey : string) (p : Poll) (s : State) :
  poll_count (arrived id apiKey p s) = (poll_count s + 1)%nat.
Proof.
  unfold poll_count, events, arrived. cbn [trace].
  rewrite map_app, filter_app, length_app. reflexivity.
Qed.

Lemma verdict_returned (startTime : Z) (p : Poll) (t : Z)
    (l : list StemResult) :
  verdict startTime p t = Done (Returned l) ->
  exists r, answer p = Http.Resolved r /\ Http.ok r = true /\
            Task.status (Http.json r) = Task.completed /\
            Task.stems (Http.json r) = Some l.
Proof.
  unfold verdict.
  destruct (answer p) as [reason | r]; [discriminate |].
  destruct (Http.ok r) eqn:Hok; cbn [negb]; [| discriminate].
  destruct (Task.status (Http.json r)) eqn:Hst,
           (Task.stems (Http.json r)) eqn:Hstems;
    cbn [Task.eqb];
    try discriminate;
    try (destruct (t - startTime >? timeout); discriminate).
  intros H. injection H as ->. exists r. auto.
Qed.

Lemma poll_loop_returned (id apiKey : string) (startTime : Z)
    (rounds : list Poll) :
  forall (s s' : State) (l : list StemResult),
    poll_loop id apiKey startTime rounds s = (Returned l, s') ->
    exists before p after r,
      rounds = (before ++ p :: after)%list /\
      answer p = Http.Resolved r /\ Http.ok r = true /\
      Task.status (Http.json r) = Task.completed /\
      Task.stems (Http.json r) = Some l /\
      poll_count s' = (poll_count s + List.length before + 1)%nat.
Proof.
  induction rounds as [| p rest IH]; intros s s' l H.
  - discriminate.
  - rewrite poll_loop_round in H.
    destruct (verdict startTime p _) as [res |] eqn:Hv.
    + injection H as -> <-.
      apply verdict_returned in Hv as (r & Ha & Hok & Hst & Hstems).
      exists [], p, rest, r. rewrite poll_count_arrived. cbn [List.length].
      repeat split; auto; lia.
    + apply IH in H as (before & q & after & r & -> & Ha & Hok & Hst & Hstems & Hn).
      exists (p :: before), q, after, r. rewrite poll_count_arrived in Hn.
      cbn [List.length]. repeat split; auto; lia.
Qed.

(** C1, as stated, fails: a "completed" answer whose [stems] is the empty
    array ends the loop with a success that has no results. *)
Lemma completed_with_empty_stems_returns :
  let run :=
    separateStems (mkRemote 0 created [round Task.completed (Some []) None])
                  "https://0x0.st/a.wav" "key" None at0 in
  fst run = Returned [] /\ poll_count (snd run) = 1%nat.
Proof. split; vm_compute; reflexivity. Qed.

(** C1 (amended): the polling loop returns successfully only on an answer
    with status "completed" that carries a [stems] field, and it returns
    that field, which may be empty; on a "completed" answer without a
    [stems] field it never returns: it throws the timeout error when the
    budget is exceeded and polls again otherwise. *)
Theorem success_only_on_completed_with_stems (id apiKey : string)
    (startTime : Z) :
  (forall rounds s s' l,
      poll_loop id apiKey startTime rounds s = (Returned l, s') ->
      exists before p after r,
        rounds = (before ++ p :: after)%list /\
        answer p = Http.Resolved r /\ Http.ok r = true /\
        Task.status (Http.json r) = Task.completed /\
        Task.stems (Http.json r) = Some l /\
        poll_count s' = (poll_count s + List.length before + 1)%nat) /\
  (forall p rest s r,
      answer p = Http.Resolved r -> Http.ok r = true ->
      Task.status (Http.json r) = Task.completed ->
      Task.stems (Http.json r) = None ->
      poll_loop id apiKey startTime (p :: rest) s =
      if now (arrived id apiKey p s) - startTime >? timeout
      then (Threw TIMEOUT_ERROR, arrived id apiKey p s)
      else poll_loop id apiKey startTime rest (arrived id apiKey p s)).
Proof.
  split.
  - intros rounds s s' l H. eapply poll_loop_returned; eassumption.
  - intros p rest s r Ha Hok Hst Hstems.
    rewrite poll_loop_round. unfold verdict.
    rewrite Ha, Hok, Hst, Hstems. cbn [negb Task.eqb].
    destruct (_ >? _); reflexivity.
Qed.

Lemma success_only_on_completed_with_stems_witness :
  (exists before p after r,
      [round Task.completed None None;
       round Task.completed (Some [vocals]) None]
      = (before ++ p :: after)%list /\
      answer p = Http.Resolved r /\
      Task.stems (Http.json r) = Some [vocals] /\
      List.length before = 1%nat) /\
  poll_loop "t1" "key" 0
    [round Task.completed None None;
     round Task.completed (Some [vocals]) None] at0
  = poll_loop "t1" "key" 0 [round Task.completed (Some [vocals]) None]
      (arrived "t1" "key" (round Task.completed None None) at0).
Proof.
  destruct (success_only_on_completed_with_stems "t1" "key" 0) as [Hret Hnot].
  split.
  - destruct (Hret [round Task.completed None None;
                    round Task.completed (Some [vocals]) None]
                   at0
                   (snd (poll_loop "t1" "key" 0
                           [round Task.completed None None;
                            round Task.completed (Some [vocals]) None] at0))
                   [vocals])
      as (before & p & after & r & Hsplit & Ha & _ & _ & Hstems & Hn).
    + vm_compute. reflexivity.
    + exists before, p, after, r. repeat split; try assumption.
      change (poll_count at0) with 0%nat in Hn.
      replace (poll_count _) with 2%nat in Hn by (vm_compute; reflexivity).
      lia.
  - apply (Hnot (round Task.completed None None)
                [round Task.completed (Some [vocals]) None] at0
                (Http.mkResponse 200 ""
                   (Task.mk "t1" Task.completed None None)));
      reflexivity.
Defined.

(** *** The call of [separateStems] *)

(** With a good URL and an accepted task, the call is the polling loop;
    [startTime] is read once, when the task request has been answered. *)
Lemma separateStems_submitted (remote : Remote) (audioUrl apiKey : string)
    (stems : option (list string)) (s : State)
    (c : Http.Response Task.Created) :
  Js.startsWith audioUrl "https://" = true ->
  create_answer remote = Http.Resolved c ->
  Http.ok c = true ->
  separateStems remote audioUrl apiKey stems s =
  poll_loop (Task.created_id (Http.json c)) apiKey
            (now (submitted remote audioUrl apiKey stems s))
            (polls remote)
            (submitted remote audioUrl apiKey stems s).
Proof.
  intros Hurl Hc Hok. unfold separateStems, submitted.
  rewrite Hurl, Hc. cbn [negb].
  unfold bind, fetch, bind, emit, elapse, ret, date_now. cbn [now trace].
  rewrite Hok. reflexivity.
Qed.

(** Rounds that do not end the loop are passed over. *)
Lemma poll_loop_skip (id apiKey : string) (startTime : Z)
    (before rest : list Poll) :
  forall s,
    all_again id apiKey startTime before s = true ->
    poll_loop id apiKey startTime (before ++ rest) s =
    poll_loop id apiKey startTime rest (after_rounds id apiKey before s).
Proof.
  induction before as [| p more IH]; intros s Hidle.
  - reflexivity.
  - cbn [app after_rounds all_again] in *. rewrite poll_loop_round.
    destruct (verdict startTime p _); [discriminate |].
    apply IH. exact Hidle.
Qed.

(** The call, at the first round that follows rounds that did not end the
    loop. *)
Lemma separateStems_at_round (remote : Remote) (audioUrl apiKey : string)
    (stems : option (list string)) (s : State)
    (c : Http.Response Task.Created) (before : list Poll) (p : Poll)
    (rest : list Poll) :
  Js.startsWith audioUrl "https://" = true ->
  create_answer remote = Http.Resolved c -> Http.ok c = true ->
  polls remote = (before ++ p :: rest)%list ->
  all_again (Task.created_id (Http.json c)) apiKey
            (now (submitted remote audioUrl apiKey stems s)) before
            (submitted remote audioUrl apiKey stems s) = true ->
  separateStems remote audioUrl apiKey stems s =
  match verdict (now (submitted remote audioUrl apiKey stems s)) p
          (now (arrived (Task.created_id (Http.json c)) apiKey p
                  (after_rounds (Task.created_id (Http.json c)) apiKey before
                     (submitted remote audioUrl apiKey stems s)))) with
  | Done res =>
      (res,
       arrived (Task.created_id (Http.json c)) apiKey p
         (after_rounds (Task.created_id (Http.json c)) apiKey before
            (submitted remote audioUrl apiKey stems s)))
  | Again =>
      poll_loop (Task.created_id (Http.json c)) apiKey
        (now (submitted remote audioUrl apiKey stems s)) rest
        (arrived (Task.created_id (Http.json c)) apiKey p
           (after_rounds (Task.created_id (Http.json c)) apiKey before
              (submitted remote audioUrl apiKey stems s)))
  end.
Proof.
  intros Hurl Hc Hokc Hpolls Hidle.
  rewrite (separateStems_submitted _ _ _ _ _ c Hurl Hc Hokc), Hpolls.
  rewrite poll_loop_skip by exact Hidle.
  apply poll_loop_round.
Qed.

(** C2: a task that stays "cancelled" is polled every 5 seconds until the
    budget is used up, 121 polls with punctual timers and immediate
    answers, and the call then fails with the timeout error. *)
Theorem cancelled_is_polled_until_timeout :
  let run :=
    separateStems
      (mkRemote 0 created (repeat (round Task.cancelled None None) 121))
      "https://0x0.st/a.wav" "key" None at0 in
  fst run = Threw TIMEOUT_ERROR /\
  poll_count (snd run) = 121%nat /\
  now (snd run) = 605000.
Proof. repeat split; vm_compute; reflexivity. Qed.

(** After a "cancelled" answer within the budget the loop polls again. *)
Lemma cancelled_polls_again (id apiKey : string) (startTime : Z) (p : Poll)
    (rest : list Poll) (s : State) (r : Http.Response Task.TaskStatus) :
  answer p = Http.Resolved r -> Http.ok r = true ->
  Task.status (Http.json r) = Task.cancelled ->
  now (arrived id apiKey p s) - startTime <= timeout ->
  poll_loop id apiKey startTime (p :: rest) s =
  poll_loop id apiKey startTime rest (arrived id apiKey p s).
Proof.
  intros Ha Hok Hst Ht. rewrite poll_loop_round. unfold verdict.
  rewrite Ha, Hok, Hst. cbn [negb Task.eqb].
  destruct (Z.gtb_spec (now (arrived id apiKey p s) - startTime) timeout);
    [lia |].
  destruct (Task.stems (Http.json r)); reflexivity.
Qed.

(** C3, as stated, fails: an answer "completed" with stems that arrives
    after more than 600 seconds ends the call with a success, not with the
    timeout error. *)
Lemma late_completed_returns :
  let run :=
    separateStems
      (mkRemote 0 created
         [mkPoll 0 600001 (answers Task.completed (Some [vocals]) None)])
      "https://0x0.st/a.wav" "key" None at0 in
  fst run = Returned [vocals] /\ now (snd run) - now at0 = 605001.
Proof. split; vm_compute; reflexivity. Qed.

(** At a round that answers with a 2xx status and neither "failed" nor
    "completed" with stems, the loop ends with the timeout error as soon as
    more than [timeout] ms have passed since [startTime]. *)
Lemma over_budget_round (startTime : Z) (p : Poll) (t : Z)
    (r : Http.Response Task.TaskStatus) :
  answer p = Http.Resolved r -> Http.ok r = true ->
  Task.status (Http.json r) <> Task.failed ->
  (Task.status (Http.json r) = Task.completed ->
   Task.stems (Http.json r) = None) ->
  timeout < t - startTime ->
  verdict startTime p t = Done (Threw TIMEOUT_ERROR).
Proof.
  intros Ha Hok Hnf Hc Ht. unfold verdict.
  rewrite Ha, Hok. cbn [negb].
  destruct (Z.gtb_spec (t - startTime) timeout); [| lia].
  destruct (Task.status (Http.json r)) eqn:Hst; cbn [Task.eqb];
    try (destruct (Task.stems (Http.json r)); reflexivity).
  - rewrite (Hc eq_refl). reflexivity.
  - congruence.
Qed.

(** C3 (amended): the budget of 600 seconds runs from the moment the task
    was accepted, whatever the earlier polls took.  When a poll is answered
    with a 2xx status and a task status that does not end the loop by
    itself (neither "failed" nor "completed" with stems; "processing" is
    such a status), and more than 600000 ms have passed since the task was
    accepted, the call fails with the timeout error. *)
Theorem over_budget_times_out (remote : Remote) (audioUrl apiKey : string)
    (stems : option (list string)) (s : State)
    (c : Http.Response Task.Created) (before : list Poll) (p : Poll)
    (rest : list Poll) (r : Http.Response Task.TaskStatus)
    (id : string) (s0 sp : State) :
  Js.startsWith audioUrl "https://" = true ->
  create_answer remote = Http.Resolved c -> Http.ok c = true ->
  id = Task.created_id (Http.json c) ->
  s0 = submitted remote audioUrl apiKey stems s ->
  polls remote = (before ++ p :: rest)%list ->
  all_again id apiKey (now s0) before s0 = true ->
  sp = arrived id apiKey p (after_rounds id apiKey before s0) ->
  answer p = Http.Resolved r -> Http.ok r = true ->
  Task.status (Http.json r) <> Task.failed ->
  (Task.status (Http.json r) = Task.completed ->
   Task.stems (Http.json r) = None) ->
  timeout < now sp - now s0 ->
  separateStems remote audioUrl apiKey stems s = (Threw TIMEOUT_ERROR, sp).
Proof.
  intros Hurl Hc Hokc -> -> Hpolls Hidle -> Ha Hok Hnf Hcs Ht.
  rewrite (separateStems_at_round _ _ _ _ _ c before p rest Hurl Hc Hokc
             Hpolls Hidle).
  rewrite (over_budget_round _ _ _ r Ha Hok Hnf Hcs Ht).
  reflexivity.
Qed.

Lemma over_budget_times_out_witness :
  separateStems
    (mkRemote 0 created
       [round Task.processing None None;
        mkPoll 0 600000 (answers Task.processing None None);
        round Task.completed (Some [vocals]) None])
    "https://0x0.st/a.wav" "key" None at0
  = (Threw TIMEOUT_ERROR,
     arrived "t1" "key" (mkPoll 0 600000 (answers Task.processing None None))
       (arrived "t1" "key" (round Task.processing None None)
          (submitted (mkRemote 0 created []) "https://0x0.st/a.wav" "key"
                     None at0))).
Proof.
  apply (over_budget_times_out
           (mkRemote 0 created
              [round Task.processing None None;
               mkPoll 0 600000 (answers Task.processing None None);
               round Task.completed (Some [vocals]) None])
           "https://0x0.st/a.wav" "key" None at0
           (Http.mkResponse 200 "" (Task.mkCreated "t1"))
           [round Task.processing None None]
           (mkPoll 0 600000 (answers Task.processing None None))
           [round Task.completed (Some [vocals]) None]
           (Http.mkResponse 200 "" (Task.mk "t1" Task.processing None None))
           "t1"
           (submitted (mkRemote 0 created []) "https://0x0.st/a.wav" "key"
                      None at0)).
  - reflexivity.
  - reflexivity.
  - reflexivity.
  - reflexivity.
  - reflexivity.
  - reflexivity.
  - vm_compute. reflexivity.
  - reflexivity.
  - reflexivity.
  - reflexivity.
  - discriminate.
  - discriminate.
  - vm_compute. reflexivity.
Defined.

(** C7, as stated, fails: when the service sends the empty string as its
    error text, the error carries the generic message instead. *)
Lemma failed_with_empty_error_text :
  let run :=
    separateStems
      (mkRemote 0 created [round Task.failed None (Some "")])
      "https://0x0.st/a.wav" "key" None at0 in
  fst run = Threw (Error "Stem separation failed: Unknown error") /\
  fst run <> Threw (Error ("Stem separation failed: " ++ "")).
Proof. split; vm_compute; [reflexivity | discriminate]. Qed.

(** The message of the error thrown for a task that failed. *)
Lemma failed_round (startTime : Z) (p : Poll) (t : Z)
    (r : Http.Response Task.TaskStatus) :
  answer p = Http.Resolved r -> Http.ok r = true ->
  Task.status (Http.json r) = Task.failed ->
  verdict startTime p t =
  Done (Threw (Error ("Stem separation failed: " ++
                      match Task.error (Http.json r) with
                      | Some text =>
                          if (text =? "")%string then "Unknown error" else text
                      | None => "Unknown error"
                      end))).
Proof.
  intros Ha Hok Hst. unfold verdict.
  rewrite Ha, Hok, Hst. cbn [negb Task.eqb].
  unfold Js.or_else, Js.truthy.
  destruct (Task.error (Http.json r)) as [text |]; [| reflexivity].
  destruct (text =? "")%string; reflexivity.
Qed.

(** C7 (amended): when a poll is answered with a 2xx status and the task
    status "failed", the call ends with the error
    [Stem separation failed: <text>], where the text is the one the
    service provides when it is present and not empty, and [Unknown error]
    when it is absent or empty. *)
Theorem failed_throws_separation_failed (remote : Remote)
    (audioUrl apiKey : string) (stems : option (list string)) (s : State)
    (c : Http.Response Task.Created) (before : list Poll) (p : Poll)
    (rest : list Poll) (r : Http.Response Task.TaskStatus)
    (id : string) (s0 : State) :
  Js.startsWith audioUrl "https://" = true ->
  create_answer remote = Http.Resolved c -> Http.ok c = true ->
  id = Task.created_id (Http.json c) ->
  s0 = submitted remote audioUrl apiKey stems s ->
  polls remote = (before ++ p :: rest)%list ->
  all_again id apiKey (now s0) before s0 = true ->
  answer p = Http.Resolved r -> Http.ok r = true ->
  Task.status (Http.json r) = Task.failed ->
  separateStems remote audioUrl apiKey stems s =
  (Threw (Error ("Stem separation failed: " ++
                 match Task.error (Http.json r) with
                 | Some text =>
                     if (text =? "")%string then "Unknown error" else text
                 | None => "Unknown error"
                 end)),
   arrived id apiKey p (after_rounds id apiKey before s0)).
Proof.
  intros Hurl Hc Hokc -> -> Hpolls Hidle Ha Hok Hst.
  rewrite (separateStems_at_round _ _ _ _ _ c before p rest Hurl Hc Hokc
             Hpolls Hidle).
  rewrite (failed_round _ _ _ r Ha Hok Hst). reflexivity.
Qed.

Lemma failed_throws_separation_failed_witness :
  fst (separateStems
         (mkRemote 0 created
            [round Task.processing None None;
             round Task.failed None (Some "bad audio")])
         "https://0x0.st/a.wav" "key" None at0)
  = Threw (Error "Stem separation failed: bad audio").
Proof.
  rewrite (failed_throws_separation_failed
             (mkRemote 0 created
                [round Task.processing None None;
                 round Task.failed None (Some "bad audio")])
             "https://0x0.st/a.wav" "key" None at0
             (Http.mkResponse 200 "" (Task.mkCreated "t1"))
             [round Task.processing None None]
             (round Task.failed None (Some "bad audio")) []
             (Http.mkResponse 200 ""
                (Task.mk "t1" Task.failed None (Some "bad audio")))
             "t1"
             (submitted (mkRemote 0 created []) "https://0x0.st/a.wav" "key"
                        None at0)).
  - reflexivity.
  - reflexivity.
  - reflexivity.
  - reflexivity.
  - reflexivity.
  - reflexivity.
  - reflexivity.
  - vm_compute. reflexivity.
  - reflexivity.
  - reflexivity.
  - reflexivity.
Defined.

(** C5: a URL that does not start with [https://] makes the call fail with
    the precondition error at once: the state is the one it started in, so
    no request was made and no time has passed. *)
Theorem rejects_non_https_url (remote : Remote) (audioUrl apiKey : string)
    (stems : option (list string)) (s : State) :
  Js.startsWith audioUrl "https://" = false ->
  separateStems remote audioUrl apiKey stems s =
  (Threw (Error "AudioShake requires HTTPS URLs"), s).
Proof.
  intros Hurl. unfold separateStems. rewrite Hurl. reflexivity.
Qed.

Lemma rejects_non_https_url_witness :
  separateStems (mkRemote 0 created [round Task.completed (Some [vocals]) None])
                "http://0x0.st/a.wav" "key" None at0 =
  (Threw (Error "AudioShake requires HTTPS URLs"), at0).
Proof.
  apply (rejects_non_https_url
           (mkRemote 0 created [round Task.completed (Some [vocals]) None])
           "http://0x0.st/a.wav" "key" None at0).
  reflexivity.
Defined.

Lemma paced_earlier (a b : Z) (tr : list (Z * Event)) :
  b <= a -> paced a tr -> paced b tr.
Proof.
  intros Hba. destruct tr as [| [t1 e1] [| [t2 e2] more]]; cbn; auto.
  destruct e1; auto. destruct e2; auto.
  intros (H1 & H2 & H3 & H4). repeat split; auto. lia.
Qed.

Lemma poll_loop_paced (id apiKey : string) (startTime : Z)
    (rounds : list Poll) :
  forall s res s',
    poll_loop id apiKey startTime rounds s = (res, s') ->
    exists new,
      trace s' = (trace s ++ new)%list /\ paced (now s) new /\
      now s <= now s' /\
      (new <> [] -> now s + pollInterval <= now s') /\
      (res <> Polling -> new <> []).
Proof.
  induction rounds as [| p rest IH]; intros s res s' H.
  - injection H as <- <-. exists []. rewrite app_nil_r.
    cbn. repeat split; auto; try lia; congruence.
  - rewrite poll_loop_round in H.
    destruct (verdict startTime p _) as [r |].
    + injection H as <- <-. eexists. split; [reflexivity |].
      cbn [arrived now trace paced]. unfold pollInterval.
      repeat split; intros; try lia; discriminate.
    + apply IH in H as (new & Htr & Hp & Hle & _ & _).
      cbn [arrived now trace] in *.
      exists ((now s, EvTimer pollInterval)
              :: (now s + (pollInterval + Z.of_N (timer_lag p)),
                  EvGetStatus (status_url id) apiKey) :: new).
      rewrite Htr, <- app_assoc. split; [reflexivity |].
      cbn [paced]. unfold pollInterval in *.
      repeat split; intros; try lia; try discriminate.
      eapply paced_earlier; [| exact Hp]. lia.
Qed.

(** C10: the events of a call are either none (the URL was refused), or the
    task request followed by polls only, each of them a 5-second timer and
    then a GET that leaves no earlier than 5 seconds after the timer was
    set, the first timer being set after the task request.  A success
    needs at least one poll, and a call that polled at all ends no earlier
    than 5 seconds after the task request. *)
Theorem every_poll_waits_first (remote : Remote) (audioUrl apiKey : string)
    (stems : option (list string)) (s s' : State)
    (res : Res (list StemResult)) :
  separateStems remote audioUrl apiKey stems s = (res, s') ->
  (trace s' = trace s /\ res = Threw (Error "AudioShake requires HTTPS URLs"))
  \/
  (exists body loop,
      trace s' =
        (trace s ++
         (now s, EvCreateTask AUDIOSHAKE_API_BASE apiKey body) :: loop)%list /\
      paced (now s) loop /\
      (loop <> [] -> now s + pollInterval <= now s') /\
      (forall l, res = Returned l -> loop <> [])).
Proof.
  intros H.
  destruct (Js.startsWith audioUrl "https://") eqn:Hurl.
  2:{ rewrite rejects_non_https_url in H by assumption.
      injection H as <- <-. left. split; reflexivity. }
  right.
  destruct (create_answer remote) as [reason | c] eqn:Hc.
  { unfold separateStems in H. rewrite Hurl, Hc in H.
    injection H as <- <-. cbn [trace now].
    eexists. exists []. split; [reflexivity |].
    cbn. repeat split; congruence. }
  destruct (Http.ok c) eqn:Hok.
  2:{ unfold separateStems in H. rewrite Hurl, Hc in H. cbn [negb] in H.
      unfold bind, fetch, bind, emit, elapse, ret in H. cbn [now trace] in H.
      rewrite Hok in H. injection H as <- <-. cbn [trace now].
      eexists. exists []. split; [reflexivity |].
      cbn. repeat split; congruence. }
  rewrite (separateStems_submitted _ _ _ _ _ c Hurl Hc Hok) in H.
  apply poll_loop_paced in H as (new & Htr & Hp & Hle & Hwait & Hres).
  cbn [submitted now trace] in *.
  eexists. exists new. rewrite Htr, <- app_assoc. split; [reflexivity |].
  repeat split.
  - eapply paced_earlier; [| exact Hp]. lia.
  - intros Hn. specialize (Hwait Hn). lia.
  - intros l ->. apply Hres. discriminate.
Qed.

Lemma every_poll_waits_first_witness :
  exists body loop,
    trace (snd (separateStems
                  (mkRemote 0 created [round Task.completed (Some [vocals]) None])
                  "https://0x0.st/a.wav" "key" None at0)) =
      (trace at0 ++
       (now at0, EvCreateTask AUDIOSHAKE_API_BASE "key" body) :: loop)%list /\
    paced (now at0) loop /\ loop <> [].
Proof.
  destruct (every_poll_waits_first
              (mkRemote 0 created [round Task.completed (Some [vocals]) None])
              "https://0x0.st/a.wav" "key" None at0
              (snd (separateStems
                      (mkRemote 0 created
                         [round Task.completed (Some [vocals]) None])
                      "https://0x0.st/a.wav" "key" None at0))
              (Returned [vocals]))
    as [[_ Hfalse] | (body & loop & Htr & Hp & _ & Hne)].
  - vm_compute. reflexivity.
  - discriminate Hfalse.
  - exists body, loop. split; [exact Htr |]. split; [exact Hp |].
    apply (Hne [vocals]). reflexivity.
Defined.

(** *** Rounds that answer "processing" *)

Lemma Task_eqb_eq (a b : Task.Status) : Task.eqb a b = true -> a = b.
Proof. destruct a, b; cbn; congruence. Qed.

Lemma duration_nonneg (p : Poll) : 0 <= duration p.
Proof. unfold duration, pollInterval. lia. Qed.

Lemma total_duration_cons (p : Poll) (rest : list Poll) :
  total_duration (p :: rest) = duration p + total_duration rest.
Proof. reflexivity. Qed.

Lemma total_duration_nonneg (rounds : list Poll) : 0 <= total_duration rounds.
Proof.
  induction rounds as [| p rest IH].
  - cbn. lia.
  - rewrite total_duration_cons. pose proof (duration_nonneg p). lia.
Qed.

Lemma now_arrived (id apiKey : string) (p : Poll) (s : State) :
  now (arrived id apiKey p s) = now s + duration p.
Proof. unfold arrived, duration. cbn [now]. lia. Qed.

Lemma now_after_rounds (id apiKey : string) (rounds : list Poll) :
  forall s, now (after_rounds id apiKey rounds s) = now s + total_duration rounds.
Proof.
  induction rounds as [| p rest IH]; intros s.
  - cbn. lia.
  - rewrite total_duration_cons. cbn [after_rounds].
    rewrite IH, now_arrived. lia.
Qed.

Lemma events_arrived (id apiKey : string) (p : Poll) (s : State) :
  events (arrived id apiKey p s) =
  (events s ++ [EvTimer pollInterval; EvGetStatus (status_url id) apiKey])%list.
Proof. unfold events, arrived. cbn [trace]. rewrite map_app. reflexivity. Qed.

Lemma events_after_rounds (id apiKey : string) (rounds : list Poll) :
  forall s,
    events (after_rounds id apiKey rounds s) =
    (events s ++ poll_events id apiKey (List.length rounds))%list.
Proof.
  unfold poll_events.
  induction rounds as [| p rest IH]; intros s; cbn [after_rounds List.length repeat concat].
  - rewrite app_nil_r. reflexivity.
  - rewrite IH, events_arrived, <- app_assoc. reflexivity.
Qed.

Lemma poll_count_after_rounds (id apiKey : string) (rounds : list Poll) :
  forall s,
    poll_count (after_rounds id apiKey rounds s) =
    (poll_count s + List.length rounds)%nat.
Proof.
  induction rounds as [| p rest IH]; intros s; cbn [after_rounds List.length].
  - lia.
  - rewrite IH, poll_count_arrived. lia.
Qed.

(** Rounds that answer "processing" within the budget are passed over. *)
Lemma processing_rounds_poll_again (id apiKey : string) (startTime : Z)
    (procs rest : list Poll) :
  forall s,
    forallb (answers_status Task.processing) procs = true ->
    now s - startTime + total_duration procs <= timeout ->
    poll_loop id apiKey startTime (procs ++ rest) s =
    poll_loop id apiKey startTime rest (after_rounds id apiKey procs s).
Proof.
  induction procs as [| p more IH]; intros s Hall Hbudget.
  - reflexivity.
  - cbn [forallb] in Hall. apply andb_prop in Hall as [Hp Hmore].
    rewrite total_duration_cons in Hbudget.
    pose proof (total_duration_nonneg more) as Hnn.
    cbn [app after_rounds]. rewrite poll_loop_round.
    unfold answers_status in Hp. unfold verdict.
    destruct (answer p) as [reason | r]; [discriminate |].
    apply andb_prop in Hp as [Hok Hst]. apply Task_eqb_eq in Hst.
    rewrite Hok, Hst. cbn [negb Task.eqb].
    rewrite now_arrived.
    destruct (Z.gtb_spec (now s + duration p - startTime) timeout); [lia |].
    apply IH; [assumption |]. rewrite now_arrived. lia.
Qed.

Lemma poll_events_succ (id apiKey : string) (n : nat) :
  poll_events id apiKey (n + 1) =
  (poll_events id apiKey n
   ++ [EvTimer pollInterval; EvGetStatus (status_url id) apiKey])%list.
Proof.
  unfold poll_events. induction n as [| n IH]; cbn [Nat.add repeat List.concat].
  - reflexivity.
  - rewrite IH. reflexivity.
Qed.

Lemma total_duration_at_least (rounds : list Poll) :
  pollInterval * Z.of_nat (List.length rounds) <= total_duration rounds.
Proof.
  induction rounds as [| p rest IH].
  - cbn. lia.
  - rewrite total_duration_cons. cbn [List.length].
    unfold duration, pollInterval in *. lia.
Qed.

Lemma poll_count_submitted (remote : Remote) (audioUrl apiKey : string)
    (stems : option (list string)) (s : State) :
  poll_count (submitted remote audioUrl apiKey stems s) = poll_count s.
Proof.
  unfold poll_count, events, submitted. cbn [trace].
  rewrite map_app, filter_app, length_app. cbn. lia.
Qed.

(** C6, as stated, fails for large [N]: after 121 answers "processing",
    5 seconds apart, the budget is used up and the call fails with the
    timeout error on the 121st poll; the result that the service would
    give on the 122nd poll is never fetched. *)
Lemma processing_121_times_times_out :
  let run :=
    separateStems
      (mkRemote 0 created
         (repeat (round Task.processing None None) 121
          ++ [round Task.completed (Some [vocals]) None]))
      "https://0x0.st/a.wav" "key" None at0 in
  fst run = Threw TIMEOUT_ERROR /\ poll_count (snd run) = 121%nat.
Proof. split; vm_compute; reflexivity. Qed.

(** C6 (amended): when the service answers "processing" [N] times and then
    "completed" with one stem result, and the [N] rounds of "processing"
    fit in the budget of 600 seconds (their timers and answers take at
    most 600000 ms in all, so [N <= 120]), the call returns exactly that
    stem result after [N + 1] polls, each a timer of 5 seconds followed by
    a GET, and no earlier than [5 * (N + 1)] seconds after the task was
    accepted. *)
Theorem processing_then_completed (remote : Remote)
    (audioUrl apiKey : string) (stems : option (list string)) (s : State)
    (c : Http.Response Task.Created) (procs : list Poll) (final : Poll)
    (rest : list Poll) (r : Http.Response Task.TaskStatus)
    (result : StemResult) :
  Js.startsWith audioUrl "https://" = true ->
  create_answer remote = Http.Resolved c -> Http.ok c = true ->
  polls remote = (procs ++ final :: rest)%list ->
  forallb (answers_status Task.processing) procs = true ->
  answer final = Http.Resolved r -> Http.ok r = true ->
  Task.status (Http.json r) = Task.completed ->
  Task.stems (Http.json r) = Some [result] ->
  total_duration procs <= timeout ->
  let N := List.length procs in
  let id := Task.created_id (Http.json c) in
  let s0 := submitted remote audioUrl apiKey stems s in
  let s' := arrived id apiKey final (after_rounds id apiKey procs s0) in
  separateStems remote audioUrl apiKey stems s = (Returned [result], s') /\
  poll_count s' = (poll_count s + N + 1)%nat /\
  events s' = (events s0 ++ poll_events id apiKey (N + 1))%list /\
  pollInterval * (Z.of_nat N + 1) <= now s' - now s0 /\
  pollInterval * Z.of_nat N <= now s' - now s0.
Proof.
  intros Hurl Hc Hokc Hpolls Hprocs Ha Hok Hst Hstems Hbudget N id s0 s'.
  assert (Hrun : separateStems remote audioUrl apiKey stems s
                 = (Returned [result], s')).
  { rewrite (separateStems_submitted _ _ _ _ _ c Hurl Hc Hokc), Hpolls.
    fold id s0.
    rewrite processing_rounds_poll_again; [| assumption | lia].
    rewrite poll_loop_round. unfold verdict.
    rewrite Ha, Hok, Hst, Hstems. reflexivity. }
  assert (Htime : pollInterval * (Z.of_nat N + 1) <= now s' - now s0).
  { subst s'. rewrite now_arrived, now_after_rounds.
    pose proof (total_duration_at_least procs). fold N in H.
    unfold duration, pollInterval in *. lia. }
  split; [exact Hrun |]. split; [| split; [| split]].
  - subst s'. rewrite poll_count_arrived, poll_count_after_rounds.
    subst s0. rewrite poll_count_submitted. reflexivity.
  - subst s'. rewrite events_arrived, events_after_rounds, poll_events_succ.
    rewrite <- app_assoc. reflexivity.
  - exact Htime.
  - unfold pollInterval in *. lia.
Qed.

Lemma processing_then_completed_witness :
  separateStems
    (mkRemote 0 created
       [round Task.processing None None; round Task.processing None None;
        round Task.completed (Some [vocals]) None])
    "https://0x0.st/a.wav" "key" None at0
  = (Returned [vocals],
     mkState 15000
       [(0, EvCreateTask AUDIOSHAKE_API_BASE "key"
              (Task.mkBody "https://0x0.st/a.wav"
                 [Task.mkTarget "vocals" ["wav"];
                  Task.mkTarget "instrumental" ["wav"]]));
        (0, EvTimer 5000); (5000, EvGetStatus (status_url "t1") "key");
        (5000, EvTimer 5000); (10000, EvGetStatus (status_url "t1") "key");
        (10000, EvTimer 5000); (15000, EvGetStatus (status_url "t1") "key")]).
Proof.
  apply (processing_then_completed
           (mkRemote 0 created
              [round Task.processing None None;
               round Task.processing None None;
               round Task.completed (Some [vocals]) None])
           "https://0x0.st/a.wav" "key" None at0
           (Http.mkResponse 200 "" (Task.mkCreated "t1"))
           [round Task.processing None None; round Task.processing None None]
           (round Task.completed (Some [vocals]) None) []
           (Http.mkResponse 200 ""
              (Task.mk "t1" Task.completed (Some [vocals]) None))
           vocals).
  - reflexivity.
  - reflexivity.
  - reflexivity.
  - reflexivity.
  - reflexivity.
  - reflexivity.
  - reflexivity.
  - reflexivity.
  - reflexivity.
  - vm_compute. discriminate.
Defined.

(** *** The supported formats *)

Lemma lower_char_dot (c : ascii) : Js.lower_char c = "."%char -> c = "."%char.
Proof.
  destruct c as [[] [] [] [] [] [] [] []]; vm_compute; congruence.
Qed.

(** C9: [isSupportedAudioFile] is true exactly for the paths whose
    extension ([extname] without its dot) is, once in lower case, one of
    mp3, wav, flac, aac, ogg, m4a, wma, aiff, alac, opus; it is false for
    every other path. *)
Theorem isSupportedAudioFile_spec `{NodePath} (filePath : string) :
  (isSupportedAudioFile filePath = true <->
   exists x, extname filePath = String "." x /\
             In (Js.toLowerCase x) supported_formats) /\
  (isSupportedAudioFile filePath = false <->
   ~ exists x, extname filePath = String "." x /\
               In (Js.toLowerCase x) supported_formats).
Proof.
  assert (Hiff : isSupportedAudioFile filePath = true <->
                 exists x, extname filePath = String "." x /\
                           In (Js.toLowerCase x) supported_formats).
  { unfold isSupportedAudioFile, set_has. rewrite existsb_exists. split.
    - intros (e & Hin & Heq). apply String.eqb_eq in Heq.
      destruct (extname filePath) as [| c x].
      + cbn in Heq. subst e. cbn in Hin. intuition discriminate.
      + cbn [Js.toLowerCase] in Heq. exists x.
        assert (Hc : c = "."%char /\ In (Js.toLowerCase x) supported_formats).
        { cbn in Hin.
          repeat (destruct Hin as [Hin | Hin];
                  [ rewrite <- Hin in Heq; injection Heq as Hc Hx;
                    apply lower_char_dot in Hc; rewrite Hx; cbn; tauto |]).
          destruct Hin. }
        destruct Hc as [-> Hx]. split; [reflexivity | exact Hx].
    - intros (x & Hext & Hin). rewrite Hext. cbn [Js.toLowerCase].
      exists (String "." (Js.toLowerCase x)). split.
      + cbn in Hin.
        repeat (destruct Hin as [Hin | Hin]; [rewrite <- Hin; cbn; tauto |]).
        destruct Hin.
      + apply String.eqb_eq. reflexivity. }
  split; [exact Hiff |].
  rewrite <- Hiff. destruct (isSupportedAudioFile filePath); split;
    congruence.
Qed.

(** *** The pipeline *)

Lemma substring_all (s : string) : String.substring 0 (String.length s) s = s.
Proof. induction s as [| c s IH]; cbn; [reflexivity | now rewrite IH]. Qed.

Lemma prefix_empty (s : string) : String.prefix "" s = true.
Proof. destruct s; reflexivity. Qed.

Lemma replace_http_prefix (rest : string) :
  Js.replace "http://" "https://" ("http://" ++ rest) = "https://" ++ rest.
Proof.
  cbn. rewrite prefix_empty. cbn.
  rewrite Nat.sub_0_r, substring_all. reflexivity.
Qed.

Lemma upgrade_scheme_http (rest : string) :
  upgrade_scheme ("http://" ++ rest) = "https://" ++ rest.
Proof.
  unfold upgrade_scheme, Js.startsWith.
  replace (String.prefix "http://" ("http://" ++ rest)) with true
    by (cbn; now rewrite prefix_empty).
  apply replace_http_prefix.
Qed.

Lemma validate_input_cases `{path : NodePath} (w : World) (s s' : State)
    (res : Res string) :
  validate_input w s = (res, s') ->
  task_requests s' = task_requests s /\
  ((res = Exited 0 /\
    Js.truthy (selected_file w) = false /\ Js.truthy (opt_song w) = false)
   \/ (res = Exited 1 /\ s' = s)
   \/ (exists f, res = Returned f /\ s' = s)).
Proof.
  unfold validate_input, when, bind, program_help, process_exit, emit, ret.
  destruct (Js.truthy (selected_file w)) eqn:Hf;
    destruct (Js.truthy (opt_song w)) eqn:Hs; cbn [negb andb];
    try destruct (existsSync w _); cbn [negb];
    try destruct (isSupportedAudioFile _); cbn [negb];
    intros H; injection H as <- <-;
    (split; [| eauto 6]); try reflexivity.
  unfold task_requests, events. cbn [trace].
  rewrite map_app, filter_app. cbn. apply app_nil_r.
Qed.

Lemma convert_stage_cases (w : World) (filePath : string) (s s' : State)
    (res : Res string) :
  convert_stage w filePath s = (res, s') ->
  trace s' =
    (trace s ++ [(now s, EvConvert filePath (converted_path w filePath))])%list
  /\ (res = Exited 1 \/ res = Returned (converted_path w filePath)).
Proof.
  unfold convert_stage, try_catch, convertToWav, bind, emit, elapse, throw,
    ret, process_exit.
  cbn [now trace].
  destruct (snd (ffmpeg w filePath (converted_path w filePath)));
    intros H; injection H as <- <-; cbn [trace]; auto.
Qed.

Lemma uploadFileTemporary_returned (w : World) (filePath : string)
    (s s' : State) (u : string) :
  uploadFileTemporary w filePath s = (Returned u, s') ->
  trace s' = (trace s ++ [(now s, EvUpload "https://0x0.st" filePath)])%list.
Proof.
  unfold uploadFileTemporary, try_catch, fetch, bind, emit, elapse, throw, ret.
  cbn [now trace].
  destruct (read_error w filePath); [discriminate |].
  destruct (upload_answer w) as [reason | r]; [discriminate |].
  destruct (negb (Http.ok r)); [discriminate |].
  intros H. injection H as _ <-. reflexivity.
Qed.

Lemma upload_stage_cases (w : World) (wavPath : string) (s s' : State)
    (res : Res string) :
  upload_stage w wavPath s = (res, s') ->
  task_requests s' = task_requests s /\
  (res = Exited 1 \/ exists audioUrl, res = Returned audioUrl).
Proof.
  unfold upload_stage, uploadFileTemporary, try_catch, fetch, bind, emit,
    elapse, throw, ret, process_exit.
  cbn [now trace].
  destruct (read_error w wavPath).
  { intros H; injection H as <- <-. auto. }
  assert (Hq : forall t,
             task_requests
               (mkState t (trace s ++ [(now s, EvUpload "https://0x0.st" wavPath)]))
             = task_requests s).
  { intros t. unfold task_requests, events. cbn [trace].
    rewrite map_app, filter_app. cbn. apply app_nil_r. }
  destruct (upload_answer w) as [reason | r].
  { intros H; injection H as <- <-. auto. }
  destruct (negb (Http.ok r)).
  { intros H; injection H as <- <-. auto. }
  destruct (negb (Js.startsWith _ _));
    intros H; injection H as <- <-; eauto.
Qed.

Lemma upload_stage_returned (w : World) (wavPath : string) (s s' : State)
    (u : string) :
  uploadFileTemporary w wavPath s = (Returned u, s') ->
  upload_stage w wavPath s =
  (if Js.startsWith (upgrade_scheme u) "https://"
   then Returned (upgrade_scheme u) else Exited 1, s').
Proof.
  intros H. unfold upload_stage, try_catch, bind. rewrite H.
  destruct (Js.startsWith (upgrade_scheme u) "https://"); reflexivity.
Qed.

Lemma key_check_absent (w : World) (s : State) :
  Js.truthy (env_AUDIOSHAKE_API_KEY w) = false ->
  key_check w s = (Exited 1, s).
Proof.
  intros H. unfold key_check, when, bind. rewrite H. reflexivity.
Qed.

(** C8: when the upload stage has returned a URL, a URL that begins with
    [http://] is turned into [https://] followed by the same remainder
    (any other URL is left as it is); if the URL then begins with
    [https://], it is the one handed to the stem-separation stage, and if
    it does not, the program exits with status 1 and no request has been
    sent to the stem-separation service. *)
Theorem uploaded_url_upgraded_or_refused `{path : NodePath} (w : World)
    (f wav u : string) (s1 s2 s3 : State) :
  validate_input w (initial w) = (Returned f, s1) ->
  convert_stage w f s1 = (Returned wav, s2) ->
  uploadFileTemporary w wav s2 = (Returned u, s3) ->
  (forall rest, u = "http://" ++ rest ->
                upgrade_scheme u = "https://" ++ rest) /\
  (Js.startsWith u "http://" = false -> upgrade_scheme u = u) /\
  (Js.startsWith (upgrade_scheme u) "https://" = true ->
   upload_stage w wav s2 = (Returned (upgrade_scheme u), s3) /\
   (Js.truthy (env_AUDIOSHAKE_API_KEY w) = true ->
    run_main w =
    separation_stage w (upgrade_scheme u) (str (env_AUDIOSHAKE_API_KEY w)) s3))
  /\
  (Js.startsWith (upgrade_scheme u) "https://" = false ->
   run_main w = (Exited 1, s3) /\ exit_status (fst (run_main w)) = Some 1 /\
   task_requests s3 = []).
Proof.
  intros Hv Hc Hu.
  pose proof (upload_stage_returned _ _ _ _ _ Hu) as Hstage.
  split; [| split; [| split]].
  - intros rest ->. apply upgrade_scheme_http.
  - intros Hno. unfold upgrade_scheme. rewrite Hno. reflexivity.
  - intros Hhttps. rewrite Hhttps in Hstage. split; [exact Hstage |].
    intros Hkey. unfold run_main, main, bind.
    rewrite Hv, Hc, Hstage. unfold key_check, when, bind.
    rewrite Hkey. reflexivity.
  - intros Hno. rewrite Hno in Hstage.
    assert (Hrun : run_main w = (Exited 1, s3)).
    { unfold run_main, main, bind. rewrite Hv, Hc, Hstage. reflexivity. }
    rewrite Hrun. repeat split.
    apply validate_input_cases in Hv as [Hq _].
    apply convert_stage_cases in Hc as [Htr _].
    apply uploadFileTemporary_returned in Hu.
    unfold task_requests, events in *. rewrite Hu, Htr.
    rewrite !map_app, !filter_app, Hq. reflexivity.
Qed.

Lemma uploaded_url_upgraded_or_refused_witness :
  upgrade_scheme "http://0x0.st/abc.wav" = "https://0x0.st/abc.wav" /\
  run_main (a_world "http://0x0.st/abc.wav" (Some "key")) =
  separation_stage (a_world "http://0x0.st/abc.wav" (Some "key"))
                   "https://0x0.st/abc.wav" "key" uploaded_state.
Proof.
  destruct (uploaded_url_upgraded_or_refused
              (a_world "http://0x0.st/abc.wav" (Some "key"))
              "song.mp3" "/work/converted/song.wav" "http://0x0.st/abc.wav"
              (initial (a_world "http://0x0.st/abc.wav" (Some "key")))
              (mkState 1000
                 [(0, EvConvert "song.mp3" "/work/converted/song.wav")])
              uploaded_state)
    as (Hup & _ & Hnext & _).
  - reflexivity.
  - reflexivity.
  - reflexivity.
  - split.
    + apply (Hup "0x0.st/abc.wav"). reflexivity.
    + apply Hnext; reflexivity.
Defined.

(** C4, as stated, fails: with the key absent and a good input file, the
    conversion and the upload run before the program exits with status 1. *)
Lemma key_is_checked_after_upload :
  env_AUDIOSHAKE_API_KEY (a_world "https://0x0.st/abc.wav" None) = None /\
  run_main (a_world "https://0x0.st/abc.wav" None) = (Exited 1, uploaded_state)
  /\ earlier_stages uploaded_state =
     [EvConvert "song.mp3" "/work/converted/song.wav";
      EvUpload "https://0x0.st" "/work/converted/song.wav"].
Proof. repeat split; vm_compute; reflexivity. Qed.

(** C4 (amended): when [AUDIOSHAKE_API_KEY] is absent or empty, no request
    is ever sent to the stem-separation service, and a run that was given
    a file or a song name exits with status 1 (the key is checked after
    the conversion and the upload, which run first). *)
Theorem absent_key_never_separates `{path : NodePath} (w : World) :
  Js.truthy (env_AUDIOSHAKE_API_KEY w) = false ->
  task_requests (snd (run_main w)) = [] /\
  (Js.truthy (selected_file w) || Js.truthy (opt_song w) = true ->
   exit_status (fst (run_main w)) = Some 1).
Proof.
  intros Hkey. unfold run_main, main, bind.
  destruct (validate_input w (initial w)) as [res1 s1] eqn:Hv.
  apply validate_input_cases in Hv as [Hq1 Hres1].
  change (task_requests (initial w)) with (@nil Event) in Hq1.
  destruct Hres1 as [(-> & Hf & Hs) | [(-> & ->) | (f & -> & ->)]].
  { cbn [fst snd]. split; [exact Hq1 |]. rewrite Hf, Hs. discriminate. }
  { cbn [fst snd]. split; reflexivity. }
  destruct (convert_stage w f (initial w)) as [res2 s2] eqn:Hc.
  apply convert_stage_cases in Hc as [Htr2 Hres2].
  assert (Hq2 : task_requests s2 = []).
  { unfold task_requests, events. rewrite Htr2, map_app, filter_app.
    reflexivity. }
  destruct Hres2 as [-> | ->].
  { cbn [fst snd]. split; [exact Hq2 | reflexivity]. }
  destruct (upload_stage w (converted_path w f) s2) as [res3 s3] eqn:Hu.
  apply upload_stage_cases in Hu as [Hq3 Hres3]. rewrite Hq2 in Hq3.
  destruct Hres3 as [-> | (u & ->)].
  { cbn [fst snd]. split; [exact Hq3 | reflexivity]. }
  rewrite key_check_absent by assumption.
  cbn [fst snd]. split; [exact Hq3 | reflexivity].
Qed.

Lemma absent_key_never_separates_witness :
  task_requests (snd (run_main (a_world "https://0x0.st/abc.wav" None))) = []
  /\ exit_status (fst (run_main (a_world "https://0x0.st/abc.wav" None)))
     = Some 1.
Proof.
  destruct (absent_key_never_separates (a_world "https://0x0.st/abc.wav" None))
    as [Hq Hexit].
  - reflexivity.
  - split; [exact Hq | apply Hexit; reflexivity].
Defined.

(** With neither a file nor a song name the program prints the help and
    leaves with status 0, whether the key is set or not. *)
Example help_exits_with_0 :
  run_main (mkWorld 0 None None [] (fun _ => true) (fun p => p)
              (fun _ _ => (0%N, None)) (fun _ => None) 0
              (Http.Rejected "offline") None (mkRemote 0 created []))
  = (Exited 0, mkState 0 [(0, EvHelp)]).
Proof. reflexivity. Qed.

(* ================================================================== *)
(** ** Further properties *)

(** *** audioshake.ts: the task request and the polls *)

Lemma verdict_not_polling (startTime : Z) (p : Poll) (t : Z) :
  verdict startTime p t <> Done Polling.
Proof.
  unfold verdict.
  destruct (answer p) as [reason | r]; [discriminate |].
  destruct (negb (Http.ok r)); [discriminate |].
  destruct (Task.status (Http.json r)), (Task.stems (Http.json r));
    cbn [Task.eqb]; try discriminate;
    destruct (t - startTime >? timeout); discriminate.
Qed.

Lemma verdict_keeps_polling (startTime : Z) (p : Poll) (t : Z) :
  verdict startTime p t = Again <-> keeps_polling startTime p t = true.
Proof.
  unfold verdict, keeps_polling.
  destruct (answer p) as [reason | r]; [split; discriminate |].
  destruct (Http.ok r); cbn [negb andb]; [| split; discriminate].
  destruct (Z.gtb_spec (t - startTime) timeout) as [Hgt | Hle];
    destruct (Z.leb_spec (t - startTime) timeout) as [Hle' | Hgt'];
    try lia;
    destruct (Task.status (Http.json r)), (Task.stems (Http.json r));
    cbn [Task.eqb negb andb]; split; congruence.
Qed.

Lemma poll_events_S (id apiKey : string) (n : nat) :
  poll_events id apiKey (S n) =
  (EvTimer pollInterval :: EvGetStatus (status_url id) apiKey
   :: poll_events id apiKey n)%list.
Proof. reflexivity. Qed.

(** What any run of the loop does: [n] polls of the same URL with the same
    key, as many as the budget allows at most. *)
Lemma poll_loop_shape (id apiKey : string) (startTime : Z)
    (rounds : list Poll) :
  forall s res s',
    poll_loop id apiKey startTime rounds s = (res, s') ->
    exists n : nat,
      (n <= List.length rounds)%nat /\
      events s' = (events s ++ poll_events id apiKey n)%list /\
      poll_count s' = (poll_count s + n)%nat /\
      pollInterval * Z.of_nat n
        <= Z.max (timeout - (now s - startTime)) 0 + pollInterval /\
      (res = Polling ->
       n = List.length rounds /\
       (rounds <> [] ->
        now s - startTime + pollInterval * Z.of_nat n <= timeout)).
Proof.
  induction rounds as [| p rest IH]; intros s res s' H.
  - injection H as <- <-. exists 0%nat. rewrite app_nil_r.
    unfold pollInterval. repeat split; try lia; congruence.
  - rewrite poll_loop_round in H.
    destruct (verdict startTime p _) as [r |] eqn:Hv.
    + injection H as <- <-. exists 1%nat.
      rewrite events_arrived, poll_count_arrived. cbn [List.length].
      unfold pollInterval.
      split; [lia |]. split; [reflexivity |]. split; [reflexivity |].
      split; [lia |].
      intros ->. exfalso. exact (verdict_not_polling _ _ _ Hv).
    + apply verdict_keeps_polling in Hv. unfold keeps_polling in Hv.
      destruct (answer p) as [reason | r]; [discriminate |].
      apply andb_prop in Hv as [_ Hbudget]. apply Z.leb_le in Hbudget.
      apply IH in H as (n & Hn & Hev & Hpc & Hb & Hpoll).
      rewrite now_arrived in *.
      pose proof (duration_nonneg p) as Hd.
      assert (Hd5 : pollInterval <= duration p)
        by (unfold duration, pollInterval; lia).
      exists (S n). rewrite Hev, events_arrived, <- app_assoc, Hpc,
        poll_count_arrived, poll_events_S.
      cbn [List.length app]. unfold pollInterval in *.
      split; [lia |]. split; [reflexivity |]. split; [lia |].
      split; [lia |].
      intros Hres. specialize (Hpoll Hres) as [Hlen Hrest].
      split; [lia |]. intros _.
      destruct rest as [| q rest'].
      * cbn [List.length] in Hlen. subst n. lia.
      * assert (Hne : q :: rest' <> []) by discriminate.
        specialize (Hrest Hne). lia.
Qed.

(** X1: when the service answers the task request with a status that is
    not 2xx, the call fails at once with
    [AudioShake API error (<status>): <body>]; the task request is the only
    thing it has done: no timer, no poll. *)
Theorem refused_task_request_fails (remote : Remote)
    (audioUrl apiKey : string) (stems : option (list string)) (s : State)
    (c : Http.Response Task.Created) :
  Js.startsWith audioUrl "https://" = true ->
  create_answer remote = Http.Resolved c ->
  Http.ok c = false ->
  separateStems remote audioUrl apiKey stems s =
  (Threw (Error ("AudioShake API error (" ++ Js.of_number (Http.status c)
                 ++ "): " ++ Http.text c)),
   submitted remote audioUrl apiKey stems s).
Proof.
  intros Hurl Hc Hok. unfold separateStems, submitted.
  rewrite Hurl, Hc. cbn [negb].
  unfold bind, fetch, bind, emit, elapse, ret, throw. cbn [now trace].
  rewrite Hok. reflexivity.
Qed.

Lemma refused_task_request_fails_witness :
  separateStems
    (mkRemote 30
       (Http.Resolved (Http.mkResponse 401 "invalid key" (Task.mkCreated "")))
       [round Task.completed (Some [vocals]) None])
    "https://0x0.st/a.wav" "key" None at0
  = (Threw (Error "AudioShake API error (401): invalid key"),
     mkState 30
       [(0, EvCreateTask AUDIOSHAKE_API_BASE "key"
              (Task.mkBody "https://0x0.st/a.wav"
                 [Task.mkTarget "vocals" ["wav"];
                  Task.mkTarget "instrumental" ["wav"]]))]).
Proof.
  apply (refused_task_request_fails
           (mkRemote 30
              (Http.Resolved
                 (Http.mkResponse 401 "invalid key" (Task.mkCreated "")))
              [round Task.completed (Some [vocals]) None])
           "https://0x0.st/a.wav" "key" None at0
           (Http.mkResponse 401 "invalid key" (Task.mkCreated "")));
    reflexivity.
Defined.

(** X2: a poll that is answered with a status that is not 2xx ends the
    call with [Failed to check task status (<status>): <body>], whatever
    the body says about the task; the poll is not repeated. *)
Theorem bad_status_answer_is_fatal (remote : Remote)
    (audioUrl apiKey : string) (stems : option (list string)) (s : State)
    (c : Http.Response Task.Created) (before : list Poll) (p : Poll)
    (rest : list Poll) (r : Http.Response Task.TaskStatus)
    (id : string) (s0 : State) :
  Js.startsWith audioUrl "https://" = true ->
  create_answer remote = Http.Resolved c -> Http.ok c = true ->
  id = Task.created_id (Http.json c) ->
  s0 = submitted remote audioUrl apiKey stems s ->
  polls remote = (before ++ p :: rest)%list ->
  all_again id apiKey (now s0) before s0 = true ->
  answer p = Http.Resolved r -> Http.ok r = false ->
  separateStems remote audioUrl apiKey stems s =
  (Threw (Error ("Failed to check task status ("
                 ++ Js.of_number (Http.status r) ++ "): " ++ Http.text r)),
   arrived id apiKey p (after_rounds id apiKey before s0)) /\
  poll_count (arrived id apiKey p (after_rounds id apiKey before s0))
  = (poll_count s + List.length before + 1)%nat.
Proof.
  intros Hurl Hc Hokc -> -> Hpolls Hidle Ha Hok. split.
  - rewrite (separateStems_at_round _ _ _ _ _ c before p rest Hurl Hc Hokc
               Hpolls Hidle).
    unfold verdict. rewrite Ha, Hok. reflexivity.
  - rewrite poll_count_arrived, poll_count_after_rounds, poll_count_submitted.
    reflexivity.
Qed.

Lemma bad_status_answer_is_fatal_witness :
  fst (separateStems
         (mkRemote 0 created
            [round Task.processing None None;
             mkPoll 0 0
               (Http.Resolved
                  (Http.mkResponse 503 "try later"
                     (Task.mk "t1" Task.completed (Some [vocals]) None)));
             round Task.completed (Some [vocals]) None])
         "https://0x0.st/a.wav" "key" None at0)
  = Threw (Error "Failed to check task status (503): try later").
Proof.
  destruct (bad_status_answer_is_fatal
              (mkRemote 0 created
                 [round Task.processing None None;
                  mkPoll 0 0
                    (Http.Resolved
                       (Http.mkResponse 503 "try later"
                          (Task.mk "t1" Task.completed (Some [vocals]) None)));
                  round Task.completed (Some [vocals]) None])
              "https://0x0.st/a.wav" "key" None at0
              (Http.mkResponse 200 "" (Task.mkCreated "t1"))
              [round Task.processing None None]
              (mkPoll 0 0
                 (Http.Resolved
                    (Http.mkResponse 503 "try later"
                       (Task.mk "t1" Task.completed (Some [vocals]) None))))
              [round Task.completed (Some [vocals]) None]
              (Http.mkResponse 503 "try later"
                 (Task.mk "t1" Task.completed (Some [vocals]) None))
              "t1"
              (submitted (mkRemote 0 created []) "https://0x0.st/a.wav" "key"
                         None at0))
    as [Hrun _].
  - reflexivity.
  - reflexivity.
  - reflexivity.
  - reflexivity.
  - reflexivity.
  - reflexivity.
  - vm_compute. reflexivity.
  - reflexivity.
  - reflexivity.
  - rewrite Hrun. reflexivity.
Defined.

Lemma separateStems_shape (remote : Remote) (audioUrl apiKey : string)
    (stems : option (list string)) (s s' : State)
    (res : Res (list StemResult)) :
  Js.startsWith audioUrl "https://" = true ->
  separateStems remote audioUrl apiKey stems s = (res, s') ->
  exists n : nat,
    (n <= List.length (polls remote))%nat /\
    (n <= max_polls)%nat /\
    events s' =
      (events (submitted remote audioUrl apiKey stems s)
       ++ poll_events (task_id remote) apiKey n)%list /\
    poll_count s' = (poll_count s + n)%nat /\
    (accepted remote = false -> n = 0%nat /\ exists e, res = Threw e) /\
    (res = Polling -> n = List.length (polls remote) /\ (n < max_polls)%nat).
Proof.
  intros Hurl H. unfold task_id, accepted.
  destruct (create_answer remote) as [reason | c] eqn:Hc.
  { unfold separateStems in H. rewrite Hurl, Hc in H.
    injection H as <- <-. exists 0%nat. unfold max_polls.
    split; [lia |]. split; [lia |].
    split; [cbn; now rewrite app_nil_r |].
    split; [unfold poll_count, events; cbn [trace];
            rewrite map_app, filter_app, length_app; cbn; lia |].
    split; [eauto | discriminate]. }
  destruct (Http.ok c) eqn:Hok.
  2:{ unfold separateStems in H. rewrite Hurl, Hc in H. cbn [negb] in H.
      unfold bind, fetch, bind, emit, elapse, ret in H. cbn [now trace] in H.
      rewrite Hok in H. injection H as <- <-. exists 0%nat. unfold max_polls.
      split; [lia |]. split; [lia |].
      split; [cbn; now rewrite app_nil_r |].
      split; [unfold poll_count, events; cbn [trace];
              rewrite map_app, filter_app, length_app; cbn; lia |].
      split; [eauto | discriminate]. }
  rewrite (separateStems_submitted _ _ _ _ _ c Hurl Hc Hok) in H.
  apply poll_loop_shape in H as (n & Hn & Hev & Hpc & Hb & Hpoll).
  rewrite poll_count_submitted in Hpc.
  assert (Hmax : (n <= max_polls)%nat).
  { unfold max_polls, pollInterval, timeout in *. lia. }
  exists n. split; [exact Hn |]. split; [exact Hmax |].
  split; [exact Hev |]. split; [exact Hpc |].
  split; [discriminate |].
  intros Hres. specialize (Hpoll Hres) as [Hlen Hbudget].
  split; [exact Hlen |].
  destruct (polls remote) as [| q rounds'].
  - cbn in Hlen. subst n. unfold max_polls. lia.
  - assert (Hne : q :: rounds' <> []) by discriminate.
    specialize (Hbudget Hne).
    unfold max_polls, pollInterval, timeout in *. lia.
Qed.

Lemma events_submitted (remote : Remote) (audioUrl apiKey : string)
    (stems : option (list string)) (s : State) :
  events (submitted remote audioUrl apiKey stems s) =
  (events s ++
   [EvCreateTask AUDIOSHAKE_API_BASE apiKey
      (Task.mkBody audioUrl
         (map (fun model => Task.mkTarget model ["wav"])
              (match stems with Some l => l | None => default_stems end)))])%list.
Proof. unfold events, submitted. cbn [trace]. now rewrite map_app. Qed.

(** X3: a call that passes the URL check sends exactly one task request,
    for the given URL and with one target in format wav for each requested
    stem (vocals and instrumental by default), and after it nothing but
    polls: each a timer of [pollInterval] and a GET of the status URL of
    the task that was created, with the same key.  When the task request
    is not accepted there is no poll at all. *)
Theorem one_task_request_then_polls (remote : Remote)
    (audioUrl apiKey : string) (stems : option (list string)) (s s' : State)
    (res : Res (list StemResult)) :
  Js.startsWith audioUrl "https://" = true ->
  separateStems remote audioUrl apiKey stems s = (res, s') ->
  exists n : nat,
    (n <= List.length (polls remote))%nat /\
    events s' =
      (events s ++
       EvCreateTask AUDIOSHAKE_API_BASE apiKey
         (Task.mkBody audioUrl
            (map (fun model => Task.mkTarget model ["wav"])
                 (match stems with Some l => l | None => default_stems end)))
       :: poll_events (task_id remote) apiKey n)%list /\
    (accepted remote = false -> n = 0%nat).
Proof.
  intros Hurl H.
  destruct (separateStems_shape _ _ _ _ _ _ _ Hurl H)
    as (n & Hn & _ & Hev & _ & Hacc & _).
  exists n. split; [exact Hn |]. split.
  - rewrite Hev, events_submitted, <- app_assoc. reflexivity.
  - intros Hno. apply Hacc. exact Hno.
Qed.

Lemma one_task_request_then_polls_witness :
  exists n : nat,
    (n <= 2)%nat /\
    events (snd (separateStems
                   (mkRemote 0 created
                      [round Task.pending None None;
                       round Task.completed (Some [vocals]) None])
                   "https://0x0.st/a.wav" "key" (Some ["drums"]) at0)) =
      (events at0 ++
       EvCreateTask AUDIOSHAKE_API_BASE "key"
         (Task.mkBody "https://0x0.st/a.wav" [Task.mkTarget "drums" ["wav"]])
       :: poll_events "t1" "key" n)%list.
Proof.
  destruct (one_task_request_then_polls
              (mkRemote 0 created
                 [round Task.pending None None;
                  round Task.completed (Some [vocals]) None])
              "https://0x0.st/a.wav" "key" (Some ["drums"]) at0
              (snd (separateStems
                      (mkRemote 0 created
                         [round Task.pending None None;
                          round Task.completed (Some [vocals]) None])
                      "https://0x0.st/a.wav" "key" (Some ["drums"]) at0))
              (Returned [vocals]))
    as (n & Hn & Hev & _).
  - reflexivity.
  - vm_compute. reflexivity.
  - exists n. split; [exact Hn | exact Hev].
Defined.

(** X4: whatever the service answers and however long it takes, one call
    makes at most 121 polls; so the loop always ends: with 121 recorded
    rounds or more, the call returns or throws. *)
Theorem polls_are_bounded (remote : Remote) (audioUrl apiKey : string)
    (stems : option (list string)) (s s' : State)
    (res : Res (list StemResult)) :
  separateStems remote audioUrl apiKey stems s = (res, s') ->
  (poll_count s' <= poll_count s + max_polls)%nat /\
  ((max_polls <= List.length (polls remote))%nat -> res <> Polling).
Proof.
  intros H.
  destruct (Js.startsWith audioUrl "https://") eqn:Hurl.
  - destruct (separateStems_shape _ _ _ _ _ _ _ Hurl H)
      as (n & _ & Hmax & _ & Hpc & _ & Hpoll).
    split; [lia |].
    intros Hlen Hres. specialize (Hpoll Hres) as [Hn Hlt]. lia.
  - unfold separateStems in H. rewrite Hurl in H. injection H as <- <-.
    split; [lia | discriminate].
Qed.

Lemma polls_are_bounded_witness :
  (poll_count
     (snd (separateStems
             (mkRemote 0 created (repeat (round Task.pending None None) 130))
             "https://0x0.st/a.wav" "key" None at0))
   <= poll_count at0 + max_polls)%nat /\
  fst (separateStems
         (mkRemote 0 created (repeat (round Task.pending None None) 130))
         "https://0x0.st/a.wav" "key" None at0) <> Polling.
Proof.
  destruct (polls_are_bounded
              (mkRemote 0 created (repeat (round Task.pending None None) 130))
              "https://0x0.st/a.wav" "key" None at0
              (snd (separateStems
                      (mkRemote 0 created
                         (repeat (round Task.pending None None) 130))
                      "https://0x0.st/a.wav" "key" None at0))
              (fst (separateStems
                      (mkRemote 0 created
                         (repeat (round Task.pending None None) 130))
                      "https://0x0.st/a.wav" "key" None at0)))
    as [Hcount Hends].
  - apply surjective_pairing.
  - split; [exact Hcount |]. apply Hends.
    unfold max_polls. cbn [polls]. rewrite repeat_length. lia.
Defined.

(** X5: after each poll the loop goes on to the next one exactly when the
    answer has a 2xx status, the task status is neither "failed" nor
    "completed" with stems, and at most 600000 ms have passed since the
    start (exactly 600000 ms still goes on); in every other case the call
    ends with the result of this round. *)
Theorem loop_goes_on_exactly_when (id apiKey : string) (startTime : Z)
    (p : Poll) (rest : list Poll) (s : State) :
  exists res : Res (list StemResult),
    res <> Polling /\
    poll_loop id apiKey startTime (p :: rest) s =
    if keeps_polling startTime p (now (arrived id apiKey p s))
    then poll_loop id apiKey startTime rest (arrived id apiKey p s)
    else (res, arrived id apiKey p s).
Proof.
  rewrite poll_loop_round.
  destruct (verdict startTime p (now (arrived id apiKey p s)))
    as [r |] eqn:Hv.
  - exists r. split.
    + intros ->. exact (verdict_not_polling _ _ _ Hv).
    + destruct (keeps_polling startTime p _) eqn:Hk; [| reflexivity].
      apply verdict_keeps_polling in Hk. congruence.
  - exists (Threw TIMEOUT_ERROR). split; [discriminate |].
    apply verdict_keeps_polling in Hv. rewrite Hv. reflexivity.
Qed.

Example budget_of_exactly_600_seconds_goes_on :
  fst (poll_loop "t1" "key" 0
         [mkPoll 0 595000 (answers Task.processing None None)] at0)
  = Polling /\
  fst (poll_loop "t1" "key" 0
         [mkPoll 0 595001 (answers Task.processing None None)] at0)
  = Threw TIMEOUT_ERROR.
Proof. split; vm_compute; reflexivity. Qed.

Lemma poll_loop_time (id apiKey : string) (startTime : Z)
    (rounds : list Poll) :
  forall s res s',
    poll_loop id apiKey startTime rounds s = (res, s') ->
    exists n : nat,
      poll_count s' = (poll_count s + n)%nat /\
      pollInterval * Z.of_nat n <= now s' - now s.
Proof.
  induction rounds as [| p rest IH]; intros s res s' H.
  - injection H as _ <-. exists 0%nat. unfold pollInterval. split; lia.
  - rewrite poll_loop_round in H.
    pose proof (duration_nonneg p) as Hd.
    assert (Hd5 : pollInterval <= duration p)
      by (unfold duration, pollInterval; lia).
    destruct (verdict startTime p _) as [r |].
    + injection H as _ <-. exists 1%nat.
      rewrite poll_count_arrived, now_arrived. split; lia.
    + apply IH in H as (n & Hpc & Ht).
      rewrite poll_count_arrived in Hpc. rewrite now_arrived in Ht.
      exists (S n). unfold pollInterval in *. split; lia.
Qed.

(** X20: polls take their time: a call that has made [n] polls has lasted
    at least [n] times 5 seconds, whatever the answers were; and the clock
    of a call never runs backwards. *)
Theorem polls_take_their_time (remote : Remote) (audioUrl apiKey : string)
    (stems : option (list string)) (s s' : State)
    (res : Res (list StemResult)) :
  separateStems remote audioUrl apiKey stems s = (res, s') ->
  exists n : nat,
    poll_count s' = (poll_count s + n)%nat /\
    pollInterval * Z.of_nat n <= now s' - now s.
Proof.
  intros H.
  destruct (Js.startsWith audioUrl "https://") eqn:Hurl.
  2:{ unfold separateStems in H. rewrite Hurl in H. injection H as _ <-.
      exists 0%nat. unfold pollInterval. split; lia. }
  assert (Hsub : poll_count (submitted remote audioUrl apiKey stems s)
                 = poll_count s /\
                 now s <= now (submitted remote audioUrl apiKey stems s)).
  { split; [apply poll_count_submitted |]. cbn [submitted now]. lia. }
  destruct Hsub as [Hpc0 Ht0].
  destruct (create_answer remote) as [reason | c] eqn:Hc.
  { unfold separateStems in H. rewrite Hurl, Hc in H.
    injection H as _ <-. exists 0%nat.
    change (mkState _ _) with (submitted remote audioUrl apiKey stems s).
    unfold pollInterval. split; lia. }
  destruct (Http.ok c) eqn:Hok.
  2:{ unfold separateStems in H. rewrite Hurl, Hc in H. cbn [negb] in H.
      unfold bind, fetch, bind, emit, elapse, ret in H. cbn [now trace] in H.
      rewrite Hok in H. injection H as _ <-. exists 0%nat.
      change (mkState _ _) with (submitted remote audioUrl apiKey stems s).
      unfold pollInterval. split; lia. }
  rewrite (separateStems_submitted _ _ _ _ _ c Hurl Hc Hok) in H.
  apply poll_loop_time in H as (n & Hpc & Ht).
  exists n. split; lia.
Qed.

Lemma polls_take_their_time_witness :
  exists n : nat,
    poll_count
      (snd (separateStems
              (mkRemote 0 created
                 [round Task.pending None None;
                  round Task.completed (Some [vocals]) None])
              "https://0x0.st/a.wav" "key" None at0))
    = (poll_count at0 + n)%nat /\
    pollInterval * Z.of_nat n
    <= now (snd (separateStems
                   (mkRemote 0 created
                      [round Task.pending None None;
                       round Task.completed (Some [vocals]) None])
                   "https://0x0.st/a.wav" "key" None at0)) - now at0.
Proof.
  apply (polls_take_their_time
           (mkRemote 0 created
              [round Task.pending None None;
               round Task.completed (Some [vocals]) None])
           "https://0x0.st/a.wav" "key" None at0 _
           (fst (separateStems
                   (mkRemote 0 created
                      [round Task.pending None None;
                       round Task.completed (Some [vocals]) None])
                   "https://0x0.st/a.wav" "key" None at0))).
  apply surjective_pairing.
Defined.

(** *** upload.ts *)







Lemma upload_is_read (w : World) (filePath : string) (s : State) :
  read_error w filePath = None ->
  uploadFileTemporary w filePath s =
  (match upload_answer w with
   | Http.Rejected reason =>
       Threw (Error ("Failed to upload file: " ++ reason))
   | Http.Resolved r =>
       if Http.ok r then Returned (Js.trim (Http.text r))
       else Threw (Error ("Failed to upload file: Upload failed ("
                          ++ Js.of_number (Http.status r) ++ "): "
                          ++ Http.text r))
   end,
   after_upload w filePath s).
Proof.
  intros Hread. unfold uploadFileTemporary, after_upload. rewrite Hread.
  unfold try_catch, fetch, bind, emit, elapse, throw, ret. cbn [now trace].
  destruct (upload_answer w) as [reason | r]; [reflexivity |].
  destruct (Http.ok r); reflexivity.
Qed.





(** *** index.ts: the stages one by one *)

Lemma validate_input_outcome `{path : NodePath} (w : World) (s : State) :
  validate_input w s =
  if negb (Js.truthy (selected_file w)) && negb (Js.truthy (opt_song w))
  then (Exited 0, mkState (now s) (trace s ++ [(now s, EvHelp)]))
  else if Js.truthy (selected_file w)
          && negb (existsSync w (str (selected_file w))
                   && isSupportedAudioFile (str (selected_file w)))
       then (Exited 1, s)
       else (Returned (if Js.truthy (selected_file w)
                       then str (selected_file w) else DOWNLOADED_SONG), s).
Proof.
  unfold validate_input, when, bind, program_help, process_exit, emit, ret,
    DOWNLOADED_SONG.
  destruct (Js.truthy (selected_file w)), (Js.truthy (opt_song w));
    cbn [negb andb]; try reflexivity;
    destruct (existsSync w _); cbn [negb andb]; try reflexivity;
    destruct (isSupportedAudioFile _); reflexivity.
Qed.

Lemma convert_stage_outcome (w : World) (filePath : string) (s : State) :
  convert_stage w filePath s =
  (match snd (ffmpeg w filePath (converted_path w filePath)) with
   | Some _ => Exited 1
   | None => Returned (converted_path w filePath)
   end,
   after_conversion w filePath s).
Proof.
  unfold convert_stage, try_catch, convertToWav, bind, emit, elapse, throw,
    ret, process_exit, after_conversion.
  cbn [now trace].
  destruct (snd (ffmpeg w filePath (converted_path w filePath)));
    reflexivity.
Qed.

Lemma prefix_split (p s : string) :
  String.prefix p s = true -> exists rest, s = p ++ rest.
Proof.
  revert s. induction p as [| c p IH]; intros s H.
  - exists s. reflexivity.
  - destruct s as [| d s]; [discriminate |]. cbn in H.
    destruct (ascii_dec c d) as [-> |]; [| discriminate].
    apply IH in H as [rest ->]. exists rest. reflexivity.
Qed.

Lemma upgrade_scheme_fixed (u : string) :
  Js.startsWith u "https://" = true -> upgrade_scheme u = u.
Proof.
  intros H. apply prefix_split in H as [rest ->]. reflexivity.
Qed.

Lemma upload_stage_outcome (w : World) (wavPath : string) (s s' : State)
    (res : Res string) :
  upload_stage w wavPath s = (res, s') ->
  (res = Exited 1 /\ (s' = s \/ s' = after_upload w wavPath s)) \/
  (exists u, res = Returned u /\ Js.startsWith u "https://" = true /\
             upgrade_scheme u = u /\ s' = after_upload w wavPath s).
Proof.
  unfold upload_stage, try_catch, bind.
  destruct (uploadFileTemporary w wavPath s) as [r1 s1] eqn:Hu.
  destruct (read_error w wavPath) as [reason |] eqn:Hread.
  - unfold uploadFileTemporary in Hu. rewrite Hread in Hu.
    injection Hu as <- <-. intros H; injection H as <- <-. auto.
  - rewrite upload_is_read in Hu by exact Hread. injection Hu as <- <-.
    destruct (upload_answer w) as [reason | r].
    { intros H; injection H as <- <-. auto. }
    destruct (Http.ok r).
    2:{ intros H; injection H as <- <-. auto. }
    destruct (Js.startsWith (upgrade_scheme (Js.trim (Http.text r)))
                            "https://") eqn:Hs; cbn [negb];
      intros H; injection H as <- <-; [right | auto].
    eexists. split; [reflexivity |]. split; [exact Hs |].
    split; [apply upgrade_scheme_fixed; exact Hs | reflexivity].
Qed.

Lemma key_check_outcome (w : World) (s : State) :
  key_check w s =
  (if Js.truthy (env_AUDIOSHAKE_API_KEY w)
   then Returned (str (env_AUDIOSHAKE_API_KEY w)) else Exited 1, s).
Proof.
  unfold key_check, when, bind, process_exit, ret.
  destruct (Js.truthy (env_AUDIOSHAKE_API_KEY w)); reflexivity.
Qed.

Lemma separation_stage_outcome (w : World) (audioUrl apiKey : string)
    (s : State) :
  separation_stage w audioUrl apiKey s =
  (script_end (fst (separateStems (remote w) audioUrl apiKey None s)),
   snd (separateStems (remote w) audioUrl apiKey None s)).
Proof.
  unfold separation_stage, try_catch, bind, ret, process_exit.
  destruct (separateStems (remote w) audioUrl apiKey None s) as [[l | e | c |] s'];
    reflexivity.
Qed.

(** A call only adds to the trace. *)
Lemma separateStems_paced_trace (remote : Remote) (audioUrl apiKey : string)
    (stems : option (list string)) (s s' : State)
    (res : Res (list StemResult)) :
  separateStems remote audioUrl apiKey stems s = (res, s') ->
  exists new, trace s' = (trace s ++ new)%list.
Proof.
  intros H.
  destruct (Js.startsWith audioUrl "https://") eqn:Hurl.
  2:{ unfold separateStems in H. rewrite Hurl in H. injection H as _ <-.
      exists []. now rewrite app_nil_r. }
  destruct (create_answer remote) as [reason | c] eqn:Hc.
  { unfold separateStems in H. rewrite Hurl, Hc in H.
    injection H as _ <-. eexists. reflexivity. }
  destruct (Http.ok c) eqn:Hok.
  2:{ unfold separateStems in H. rewrite Hurl, Hc in H. cbn [negb] in H.
      unfold bind, fetch, bind, emit, elapse, ret in H. cbn [now trace] in H.
      rewrite Hok in H. injection H as _ <-. eexists. reflexivity. }
  rewrite (separateStems_submitted _ _ _ _ _ c Hurl Hc Hok) in H.
  apply poll_loop_paced in H as (new & Htr & _).
  rewrite Htr. cbn [submitted trace]. rewrite <- app_assoc.
  eexists. reflexivity.
Qed.

(** *** index.ts: the whole run *)

(** X8: when a file path is given and the file does not exist or has an
    extension that is not supported, the program exits with status 1
    before it has done anything: no conversion, no upload, no request. *)
Theorem bad_input_exits_before_any_stage `{path : NodePath} (w : World) :
  Js.truthy (selected_file w) = true ->
  existsSync w (str (selected_file w)) = false \/
  isSupportedAudioFile (str (selected_file w)) = false ->
  run_main w = (Exited 1, initial w).
Proof.
  intros Hf Hbad. unfold run_main, main, bind.
  rewrite validate_input_outcome, Hf. cbn [negb andb].
  destruct Hbad as [-> | ->]; [reflexivity |].
  rewrite andb_false_r. reflexivity.
Qed.

Lemma bad_input_exits_before_any_stage_witness :
  run_main
    (mkWorld 0 None None ["notes.txt"] (fun _ => true)
       (fun _ => "/work/converted/notes.wav") (fun _ _ => (1000%N, None))
       (fun _ => None) 200
       (Http.Resolved (Http.mkResponse 200 "https://0x0.st/abc.wav" tt))
       (Some "key")
       (mkRemote 0 created [round Task.completed (Some [vocals]) None]))
  = (Exited 1, mkState 0 []).
Proof.
  apply (bad_input_exits_before_any_stage
           (mkWorld 0 None None ["notes.txt"] (fun _ => true)
              (fun _ => "/work/converted/notes.wav")
              (fun _ _ => (1000%N, None))
              (fun _ => None) 200
              (Http.Resolved (Http.mkResponse 200 "https://0x0.st/abc.wav" tt))
              (Some "key")
              (mkRemote 0 created
                 [round Task.completed (Some [vocals]) None]))).
  - reflexivity.
  - right. reflexivity.
Defined.

(** X9: with a song name and no file path, neither the existence nor the
    format of a file is checked: the program goes on to convert the fixed
    path [./downloaded/song.mp3], whether it exists or not. *)
Theorem song_name_alone_converts_fixed_path `{path : NodePath} (w : World) :
  Js.truthy (selected_file w) = false ->
  Js.truthy (opt_song w) = true ->
  exists rest,
    trace (snd (run_main w)) =
    ((clock0 w, EvConvert DOWNLOADED_SONG (converted_path w DOWNLOADED_SONG))
     :: rest)%list.
Proof.
  intros Hf Hs. unfold run_main, main, bind.
  rewrite validate_input_outcome, Hf, Hs. cbn [negb andb].
  rewrite convert_stage_outcome.
  destruct (snd (ffmpeg w DOWNLOADED_SONG (converted_path w DOWNLOADED_SONG))).
  { exists []. reflexivity. }
  destruct (upload_stage w _ _) as [res3 s3] eqn:Hu.
  assert (Hs3 : exists rest3,
             trace s3 =
             ((clock0 w,
               EvConvert DOWNLOADED_SONG (converted_path w DOWNLOADED_SONG))
              :: rest3)%list).
  { apply upload_stage_outcome in Hu
      as [(_ & [-> | ->]) | (u & _ & _ & _ & ->)];
      eexists; reflexivity. }
  destruct Hs3 as [rest3 Hs3].
  destruct res3 as [u | e | c |]; cbn [snd]; eauto.
  rewrite key_check_outcome.
  destruct (Js.truthy (env_AUDIOSHAKE_API_KEY w)); cbn [snd]; eauto.
  rewrite separation_stage_outcome. cbn [snd].
  destruct (separateStems (remote w) u _ None s3) as [res4 s4] eqn:H4.
  cbn [snd].
  destruct (Js.startsWith u "https://") eqn:Hurl.
  - destruct (separateStems_paced_trace _ _ _ _ _ _ _ H4) as [new Htr].
    rewrite Htr, Hs3. eexists. reflexivity.
  - unfold separateStems in H4. rewrite Hurl in H4. injection H4 as _ <-.
    eauto.
Qed.

Lemma song_name_alone_converts_fixed_path_witness :
  exists rest,
    trace (snd (run_main
                  (mkWorld 7 None (Some "some song") [] (fun _ => false)
                     (fun _ => "/work/converted/song.wav")
                     (fun _ _ => (10%N, Some "No such file or directory"))
                     (fun _ => None) 200
                     (Http.Rejected "offline") (Some "key")
                     (mkRemote 0 created [])))) =
    ((7, EvConvert DOWNLOADED_SONG "/work/converted/song.wav") :: rest)%list.
Proof.
  apply (song_name_alone_converts_fixed_path
           (mkWorld 7 None (Some "some song") [] (fun _ => false)
              (fun _ => "/work/converted/song.wav")
              (fun _ _ => (10%N, Some "No such file or directory"))
              (fun _ => None) 200
              (Http.Rejected "offline") (Some "key")
              (mkRemote 0 created [])));
    reflexivity.
Defined.

(** X10: the stages run strictly one after the other.  The events of a
    run are: nothing at all; or the help; or a conversion; or a conversion
    and the upload of its output; or these two followed by one task
    request, for a URL that starts with [https://], with the key of the
    environment and the two default stems, and then by polls of that task
    only. *)
Theorem stages_run_in_order `{path : NodePath} (w : World) :
  events (snd (run_main w)) = [] \/
  events (snd (run_main w)) = [EvHelp] \/
  exists f,
    events (snd (run_main w)) = [EvConvert f (converted_path w f)] \/
    events (snd (run_main w)) =
      [EvConvert f (converted_path w f);
       EvUpload "https://0x0.st" (converted_path w f)] \/
    exists u n,
      Js.startsWith u "https://" = true /\
      events (snd (run_main w)) =
        (EvConvert f (converted_path w f)
         :: EvUpload "https://0x0.st" (converted_path w f)
         :: EvCreateTask AUDIOSHAKE_API_BASE
              (str (env_AUDIOSHAKE_API_KEY w))
              (Task.mkBody u default_targets)
         :: poll_events (task_id (remote w))
              (str (env_AUDIOSHAKE_API_KEY w)) n)%list.
Proof.
  unfold run_main, main, bind.
  rewrite validate_input_outcome.
  destruct (negb (Js.truthy (selected_file w))
            && negb (Js.truthy (opt_song w))).
  { right. left. reflexivity. }
  destruct (Js.truthy (selected_file w)
            && negb (existsSync w (str (selected_file w))
                     && isSupportedAudioFile (str (selected_file w)))).
  { left. reflexivity. }
  right. right.
  set (f := if Js.truthy (selected_file w) then str (selected_file w)
            else DOWNLOADED_SONG).
  exists f. rewrite convert_stage_outcome.
  destruct (snd (ffmpeg w f (converted_path w f))).
  { left. reflexivity. }
  destruct (upload_stage w (converted_path w f)
              (after_conversion w f (initial w))) as [res3 s3] eqn:Hu.
  apply upload_stage_outcome in Hu
    as [(-> & [-> | ->]) | (u & -> & Hurl & _ & ->)].
  { left. reflexivity. }
  { right. left. reflexivity. }
  rewrite key_check_outcome.
  destruct (Js.truthy (env_AUDIOSHAKE_API_KEY w)).
  2:{ right. left. reflexivity. }
  right. right. exists u.
  rewrite separation_stage_outcome. cbn [snd].
  destruct (separateStems (remote w) u (str (env_AUDIOSHAKE_API_KEY w)) None
              (after_upload w (converted_path w f)
                 (after_conversion w f (initial w)))) as [res4 s4] eqn:H4.
  destruct (separateStems_shape _ _ _ _ _ _ _ Hurl H4)
    as (n & _ & _ & Hev & _).
  exists n. split; [exact Hurl |].
  cbn [snd]. rewrite Hev, events_submitted. reflexivity.
Qed.

Lemma separateStems_returned (remote : Remote) (audioUrl apiKey : string)
    (stems : option (list string)) (s s' : State) (l : list StemResult) :
  separateStems remote audioUrl apiKey stems s = (Returned l, s') ->
  exists before p after r,
    polls remote = (before ++ p :: after)%list /\
    answer p = Http.Resolved r /\ Http.ok r = true /\
    Task.status (Http.json r) = Task.completed /\
    Task.stems (Http.json r) = Some l.
Proof.
  intros H.
  destruct (Js.startsWith audioUrl "https://") eqn:Hurl.
  2:{ unfold separateStems in H. rewrite Hurl in H. discriminate. }
  destruct (create_answer remote) as [reason | c] eqn:Hc.
  { unfold separateStems in H. rewrite Hurl, Hc in H. discriminate. }
  destruct (Http.ok c) eqn:Hok.
  2:{ unfold separateStems in H. rewrite Hurl, Hc in H. cbn [negb] in H.
      unfold bind, fetch, bind, emit, elapse, ret in H. cbn [now trace] in H.
      rewrite Hok in H. discriminate. }
  rewrite (separateStems_submitted _ _ _ _ _ c Hurl Hc Hok) in H.
  apply poll_loop_returned in H
    as (before & p & after & r & Hsplit & Ha & Hokr & Hst & Hstems & _).
  exists before, p, after, r. auto.
Qed.

Lemma poll_loop_never_exits (id apiKey : string) (startTime : Z)
    (rounds : list Poll) :
  forall s s' c, poll_loop id apiKey startTime rounds s <> (Exited c, s').
Proof.
  induction rounds as [| p rest IH]; intros s s' c H.
  - discriminate.
  - rewrite poll_loop_round in H.
    destruct (verdict startTime p _) as [r |] eqn:Hv.
    + injection H as -> _. revert Hv. unfold verdict.
      destruct (answer p) as [reason | r]; [discriminate |].
      destruct (negb (Http.ok r)); [discriminate |].
      destruct (Task.status (Http.json r)), (Task.stems (Http.json r));
        cbn [Task.eqb]; try discriminate;
        destruct (_ >? _); discriminate.
    + exact (IH _ _ _ H).
Qed.

Lemma separateStems_never_exits (remote : Remote) (audioUrl apiKey : string)
    (stems : option (list string)) (s s' : State) (c : Z) :
  separateStems remote audioUrl apiKey stems s = (Exited c, s') -> False.
Proof.
  intros H.
  destruct (Js.startsWith audioUrl "https://") eqn:Hurl.
  2:{ unfold separateStems in H. rewrite Hurl in H. discriminate. }
  destruct (create_answer remote) as [reason | cr] eqn:Hc.
  { unfold separateStems in H. rewrite Hurl, Hc in H. discriminate. }
  destruct (Http.ok cr) eqn:Hok.
  2:{ unfold separateStems in H. rewrite Hurl, Hc in H. cbn [negb] in H.
      unfold bind, fetch, bind, emit, elapse, ret in H. cbn [now trace] in H.
      rewrite Hok in H. discriminate. }
  rewrite (separateStems_submitted _ _ _ _ _ cr Hurl Hc Hok) in H.
  exact (poll_loop_never_exits _ _ _ _ _ _ _ H).
Qed.

Lemma stages_end (w : World) (f : string) (s : State) :
  match fst (stages w f s) with
  | Threw _ => False
  | Exited code => code = 1
  | Returned _ =>
      Js.truthy (env_AUDIOSHAKE_API_KEY w) = true /\
      exists before p after r l,
        polls (remote w) = (before ++ p :: after)%list /\
        answer p = Http.Resolved r /\ Http.ok r = true /\
        Task.status (Http.json r) = Task.completed /\
        Task.stems (Http.json r) = Some l
  | Polling => True
  end.
Proof.
  unfold stages, bind. rewrite convert_stage_outcome.
  destruct (snd (ffmpeg w f (converted_path w f))); [reflexivity |].
  destruct (upload_stage w (converted_path w f) (after_conversion w f s))
    as [res3 s3] eqn:Hu.
  apply upload_stage_outcome in Hu
    as [(-> & _) | (u & -> & Hurl & _ & ->)]; [reflexivity |].
  rewrite key_check_outcome.
  destruct (Js.truthy (env_AUDIOSHAKE_API_KEY w)) eqn:Hkey; [| reflexivity].
  rewrite separation_stage_outcome. cbn [fst].
  destruct (separateStems (remote w) u (str (env_AUDIOSHAKE_API_KEY w)) None
              (after_upload w (converted_path w f) (after_conversion w f s)))
    as [[l | e | c |] s4] eqn:H4; cbn [script_end].
  - split; [reflexivity |].
    apply separateStems_returned in H4 as (before & p & after & r & Hrest).
    exists before, p, after, r, l. exact Hrest.
  - reflexivity.
  - exfalso. exact (separateStems_never_exits _ _ _ _ _ _ _ H4).
  - exact I.
Qed.

(** X11: a run never ends with an uncaught exception, and its exit status
    is 0 or 1.  It is 0 only when the help was printed (neither a file nor
    a song name was given) or when the key is set and the service answered
    one of the polls with "completed" and stems; every failure gives 1. *)
Theorem exit_status_is_0_only_for_help_or_success `{path : NodePath}
    (w : World) :
  match fst (run_main w) with
  | Threw _ => False
  | Exited code =>
      code = 1 \/
      (code = 0 /\ Js.truthy (selected_file w) = false /\
       Js.truthy (opt_song w) = false)
  | Returned _ =>
      Js.truthy (env_AUDIOSHAKE_API_KEY w) = true /\
      exists before p after r l,
        polls (remote w) = (before ++ p :: after)%list /\
        answer p = Http.Resolved r /\ Http.ok r = true /\
        Task.status (Http.json r) = Task.completed /\
        Task.stems (Http.json r) = Some l
  | Polling => True
  end.
Proof.
  unfold run_main. change (main w) with (bind (validate_input w) (stages w)).
  unfold bind. rewrite validate_input_outcome.
  destruct (Js.truthy (selected_file w)) eqn:Hf;
    destruct (Js.truthy (opt_song w)) eqn:Hs; cbn [negb andb fst].
  - destruct (existsSync w (str (selected_file w))
              && isSupportedAudioFile (str (selected_file w)));
      cbn [negb fst]; [| left; reflexivity].
    pose proof (stages_end w (str (selected_file w)) (initial w)) as H.
    destruct (fst (stages w (str (selected_file w)) (initial w))); auto.
  - destruct (existsSync w (str (selected_file w))
              && isSupportedAudioFile (str (selected_file w)));
      cbn [negb fst]; [| left; reflexivity].
    pose proof (stages_end w (str (selected_file w)) (initial w)) as H.
    destruct (fst (stages w (str (selected_file w)) (initial w))); auto.
  - pose proof (stages_end w DOWNLOADED_SONG (initial w)) as H.
    destruct (fst (stages w DOWNLOADED_SONG (initial w))); auto.
  - right. auto.
Qed.

Lemma main_stages `{path : NodePath} (w : World) (f : string) (s1 : State) :
  validate_input w (initial w) = (Returned f, s1) ->
  run_main w = stages w f s1.
Proof.
  intros Hv. unfold run_main.
  change (main w) with (bind (validate_input w) (stages w)).
  unfold bind at 1. rewrite Hv. reflexivity.
Qed.

(** X12: when the conversion fails, the program exits with status 1 and
    the conversion is all it has done: nothing is uploaded and nothing is
    asked of the stem-separation service. *)
Theorem failed_conversion_ends_the_run `{path : NodePath} (w : World)
    (f reason : string) (s1 : State) :
  validate_input w (initial w) = (Returned f, s1) ->
  snd (ffmpeg w f (converted_path w f)) = Some reason ->
  run_main w = (Exited 1, after_conversion w f s1).
Proof.
  intros Hv Hfail. rewrite (main_stages w f s1 Hv).
  unfold stages, bind. rewrite convert_stage_outcome, Hfail. reflexivity.
Qed.

Lemma failed_conversion_ends_the_run_witness :
  run_main
    (mkWorld 0 (Some "song.mp3") None [] (fun _ => true)
       (fun _ => "/work/converted/song.wav")
       (fun _ _ => (40%N, Some "Invalid data found when processing input"))
       (fun _ => None) 200
       (Http.Resolved (Http.mkResponse 200 "https://0x0.st/abc.wav" tt))
       (Some "key")
       (mkRemote 0 created [round Task.completed (Some [vocals]) None]))
  = (Exited 1,
     mkState 40 [(0, EvConvert "song.mp3" "/work/converted/song.wav")]).
Proof.
  apply (failed_conversion_ends_the_run
           (mkWorld 0 (Some "song.mp3") None [] (fun _ => true)
              (fun _ => "/work/converted/song.wav")
              (fun _ _ =>
                 (40%N, Some "Invalid data found when processing input"))
              (fun _ => None) 200
              (Http.Resolved (Http.mkResponse 200 "https://0x0.st/abc.wav" tt))
              (Some "key")
              (mkRemote 0 created
                 [round Task.completed (Some [vocals]) None]))
           "song.mp3" "Invalid data found when processing input"
           (mkState 0 []));
    reflexivity.
Defined.

(** X13: when the upload fails, for whatever reason, the program exits
    with status 1 and no request has been sent to the stem-separation
    service. *)
Theorem failed_upload_ends_the_run `{path : NodePath} (w : World)
    (f wav : string) (e : JsError) (s1 s2 s3 : State) :
  validate_input w (initial w) = (Returned f, s1) ->
  convert_stage w f s1 = (Returned wav, s2) ->
  uploadFileTemporary w wav s2 = (Threw e, s3) ->
  run_main w = (Exited 1, s3) /\ task_requests s3 = [].
Proof.
  intros Hv Hc Hu. split.
  - rewrite (main_stages w f s1 Hv). unfold stages, bind. rewrite Hc.
    unfold upload_stage, try_catch, bind. rewrite Hu. reflexivity.
  - rewrite validate_input_outcome in Hv.
    assert (Hs1 : s1 = initial w).
    { destruct (negb _ && negb _); [discriminate |].
      destruct (Js.truthy _ && negb _); [discriminate |].
      now injection Hv as _ <-. }
    subst s1. rewrite convert_stage_outcome in Hc. injection Hc as _ <-.
    destruct (read_error w wav) as [reason |] eqn:Hread.
    + unfold uploadFileTemporary in Hu. rewrite Hread in Hu.
      injection Hu as _ <-. reflexivity.
    + rewrite upload_is_read in Hu by exact Hread.
      injection Hu as _ <-. reflexivity.
Qed.

Lemma failed_upload_ends_the_run_witness :
  run_main
    (mkWorld 0 (Some "song.mp3") None [] (fun _ => true)
       (fun _ => "/work/converted/song.wav") (fun _ _ => (1000%N, None))
       (fun _ => None) 200 (Http.Rejected "fetch failed") (Some "key")
       (mkRemote 0 created [round Task.completed (Some [vocals]) None]))
  = (Exited 1, uploaded_state).
Proof.
  apply (failed_upload_ends_the_run
           (mkWorld 0 (Some "song.mp3") None [] (fun _ => true)
              (fun _ => "/work/converted/song.wav")
              (fun _ _ => (1000%N, None))
              (fun _ => None) 200 (Http.Rejected "fetch failed") (Some "key")
              (mkRemote 0 created
                 [round Task.completed (Some [vocals]) None]))
           "song.mp3" "/work/converted/song.wav"
           (Error "Failed to upload file: fetch failed")
           (mkState 0 [])
           (mkState 1000
              [(0, EvConvert "song.mp3" "/work/converted/song.wav")])
           uploaded_state);
    reflexivity.
Defined.

(** X14: once the URL is uploaded and the key is there, the end of
    [separateStems] decides the end of the run: the script runs to its end
    (status 0) when the call returns, and exits with status 1 for every
    error the call throws, the timeout and a failed task included. *)
Theorem separation_decides_the_exit `{path : NodePath} (w : World)
    (f wav u : string) (s1 s2 s3 : State) :
  validate_input w (initial w) = (Returned f, s1) ->
  convert_stage w f s1 = (Returned wav, s2) ->
  upload_stage w wav s2 = (Returned u, s3) ->
  Js.truthy (env_AUDIOSHAKE_API_KEY w) = true ->
  run_main w =
  (script_end
     (fst (separateStems (remote w) u (str (env_AUDIOSHAKE_API_KEY w))
             None s3)),
   snd (separateStems (remote w) u (str (env_AUDIOSHAKE_API_KEY w)) None s3))
  /\
  (exit_status (fst (run_main w)) = Some 0 <->
   exists l,
     fst (separateStems (remote w) u (str (env_AUDIOSHAKE_API_KEY w)) None s3)
     = Returned l) /\
  (forall e,
     fst (separateStems (remote w) u (str (env_AUDIOSHAKE_API_KEY w)) None s3)
     = Threw e ->
     exit_status (fst (run_main w)) = Some 1).
Proof.
  intros Hv Hc Hu Hkey.
  assert (Hrun : run_main w =
                 (script_end
                    (fst (separateStems (remote w) u
                            (str (env_AUDIOSHAKE_API_KEY w)) None s3)),
                  snd (separateStems (remote w) u
                         (str (env_AUDIOSHAKE_API_KEY w)) None s3))).
  { rewrite (main_stages w f s1 Hv). unfold stages, bind. rewrite Hc, Hu.
    rewrite key_check_outcome, Hkey. apply separation_stage_outcome. }
  split; [exact Hrun |]. rewrite Hrun. cbn [fst].
  destruct (separateStems (remote w) u (str (env_AUDIOSHAKE_API_KEY w)) None s3)
    as [[l | e | c |] s4] eqn:H4; cbn [fst script_end exit_status].
  - split; [split; eauto | discriminate].
  - split; [split; [discriminate | intros [l Hl]; discriminate] | reflexivity].
  - exfalso. exact (separateStems_never_exits _ _ _ _ _ _ _ H4).
  - split; [split; [discriminate | intros [l Hl]; discriminate] | discriminate].
Qed.

Lemma separation_decides_the_exit_witness :
  exit_status
    (fst (run_main
            (mkWorld 0 (Some "song.mp3") None [] (fun _ => true)
               (fun _ => "/work/converted/song.wav")
               (fun _ _ => (1000%N, None))
               (fun _ => None) 200
               (Http.Resolved
                  (Http.mkResponse 200 "http://0x0.st/abc.wav" tt))
               (Some "key")
               (mkRemote 0 created [round Task.failed None None]))))
  = Some 1.
Proof.
  destruct (separation_decides_the_exit
              (mkWorld 0 (Some "song.mp3") None [] (fun _ => true)
                 (fun _ => "/work/converted/song.wav")
                 (fun _ _ => (1000%N, None))
                 (fun _ => None) 200
                 (Http.Resolved
                    (Http.mkResponse 200 "http://0x0.st/abc.wav" tt))
                 (Some "key")
                 (mkRemote 0 created [round Task.failed None None]))
              "song.mp3" "/work/converted/song.wav" "https://0x0.st/abc.wav"
              (mkState 0 [])
              (mkState 1000
                 [(0, EvConvert "song.mp3" "/work/converted/song.wav")])
              uploaded_state)
    as (_ & _ & Hthrow).
  - reflexivity.
  - reflexivity.
  - reflexivity.
  - reflexivity.
  - apply (Hthrow (Error "Stem separation failed: Unknown error")).
    vm_compute. reflexivity.
Defined.

(** X15: the upgrade of the scheme never leaves a URL that starts with
    [http://], and doing it twice is the same as doing it once. *)
Theorem upgrade_scheme_is_idempotent (u : string) :
  Js.startsWith (upgrade_scheme u) "http://" = false /\
  upgrade_scheme (upgrade_scheme u) = upgrade_scheme u.
Proof.
  assert (H : Js.startsWith (upgrade_scheme u) "http://" = false).
  { destruct (Js.startsWith u "http://") eqn:Hu.
    - apply prefix_split in Hu as [rest ->].
      rewrite upgrade_scheme_http. reflexivity.
    - unfold upgrade_scheme. rewrite Hu. exact Hu. }
  split; [exact H |].
  unfold upgrade_scheme at 1. rewrite H. reflexivity.
Qed.

(** *** index.ts: the name of the program *)

Example includes_examples :
  includes "node dist/index.js" "dist/index.js" = true /\
  includes "abc" "" = true /\ includes "" "" = true /\
  includes "abc" "abd" = false.
Proof. repeat split; reflexivity. Qed.

Example matches_ts_node_examples :
  matches_ts_node "/usr/bin/ts-node" = true /\
  matches_ts_node "npx TS-Node src/index.ts" = true /\
  matches_ts_node "ts-node-dev" = true /\
  matches_ts_node "ts-nodemon" = false /\
  matches_ts_node "ts-nodeX" = false /\
  matches_ts_node "ts-nod" = false.
Proof. repeat split; reflexivity. Qed.

Lemma truthy_some (s : string) : Js.truthy (Some s) = true <-> s <> "".
Proof.
  cbn. destruct (String.eqb_spec s ""); cbn; split; congruence.
Qed.

Lemma formatScriptPath_cases (pr : Process) (scriptPath : string) :
  formatScriptPath pr scriptPath = scriptPath \/
  (isAbsolute pr scriptPath = true /\
   formatScriptPath pr scriptPath <> "" /\
   Js.startsWith (formatScriptPath pr scriptPath) "." = true /\
   Js.startsWith (formatScriptPath pr scriptPath) ".." = false).
Proof.
  unfold formatScriptPath.
  destruct (negb (Js.truthy (Some scriptPath))); [left; reflexivity |].
  destruct (isAbsolute pr scriptPath); [| left; reflexivity].
  destruct (Js.truthy (Some (relative_from_cwd pr scriptPath))) eqn:Ht;
    [| left; reflexivity].
  destruct (Js.startsWith (relative_from_cwd pr scriptPath) "..") eqn:Hdd;
    [left; reflexivity |].
  cbn [andb negb]. right. split; [reflexivity |].
  apply truthy_some in Ht.
  destruct (Js.startsWith (relative_from_cwd pr scriptPath) ".") eqn:Hd.
  - auto.
  - repeat split; try reflexivity. discriminate.
Qed.

Lemma truthy_str (v : option string) : Js.truthy v = true -> str v <> "".
Proof.
  destruct v as [s |]; [| discriminate]. intros H. now apply truthy_some.
Qed.

Lemma formatScriptPath_not_empty (pr : Process) (scriptPath : string) :
  scriptPath <> "" -> formatScriptPath pr scriptPath <> "".
Proof.
  intros Hp.
  destruct (formatScriptPath_cases pr scriptPath) as [-> | (_ & H & _)];
    assumption.
Qed.

(** X16: [formatScriptPath] rewrites a path only when it is absolute and
    lies inside the working directory, into a path that starts with a dot
    and not with two; every other path is returned as it is.  The result is
    empty only for the empty path. *)
Theorem formatScriptPath_spec (pr : Process) (scriptPath : string) :
  (formatScriptPath pr scriptPath = "" <-> scriptPath = "") /\
  (isAbsolute pr scriptPath = false ->
   formatScriptPath pr scriptPath = scriptPath) /\
  (formatScriptPath pr scriptPath = scriptPath \/
   (isAbsolute pr scriptPath = true /\
    relative_from_cwd pr scriptPath <> "" /\
    Js.startsWith (relative_from_cwd pr scriptPath) ".." = false /\
    Js.startsWith (formatScriptPath pr scriptPath) "." = true /\
    Js.startsWith (formatScriptPath pr scriptPath) ".." = false)).
Proof.
  split; [| split].
  - split.
    + intros H. destruct (String.eqb_spec scriptPath ""); [assumption |].
      exfalso. exact (formatScriptPath_not_empty pr scriptPath n H).
    + intros ->. reflexivity.
  - intros Habs. unfold formatScriptPath. rewrite Habs.
    destruct (negb _); reflexivity.
  - unfold formatScriptPath.
    destruct (negb (Js.truthy (Some scriptPath))); [left; reflexivity |].
    destruct (isAbsolute pr scriptPath); [| left; reflexivity].
    destruct (Js.truthy (Some (relative_from_cwd pr scriptPath))) eqn:Ht;
      [| left; reflexivity].
    destruct (Js.startsWith (relative_from_cwd pr scriptPath) "..") eqn:Hdd;
      [left; reflexivity |].
    cbn [andb negb]. right. apply truthy_some in Ht.
    destruct (Js.startsWith (relative_from_cwd pr scriptPath) ".") eqn:Hd;
      auto 6.
Qed.

Lemma concat_not_empty (sep x : string) (xs : list string) :
  x <> "" -> String.concat sep (x :: xs) <> "".
Proof.
  intros Hx. cbn [String.concat].
  destruct x as [| c x]; [congruence |].
  destruct xs; cbn; discriminate.
Qed.

Lemma deriveInvocationCommand_parts (first : string) (execArgs : list string)
    (formatted : option string) :
  formatted = None \/ Js.truthy formatted = true ->
  (if (0 <? List.length
              (filter Js.truthy
                 (Some first :: map Some execArgs ++ [formatted])))%nat
   then String.concat " "
          (map str
             (filter Js.truthy
                (Some first :: map Some execArgs ++ [formatted])))
   else match formatted with Some f => f | None => "node" end) <> "".
Proof.
  intros Hfmt.
  destruct (filter Js.truthy (Some first :: map Some execArgs ++ [formatted]))
    as [| h parts] eqn:Hparts.
  - cbn [List.length Nat.ltb Nat.leb].
    destruct Hfmt as [-> | Hf]; [discriminate |].
    exfalso.
    assert (Hin : In formatted
                     (filter Js.truthy
                        (Some first :: map Some execArgs ++ [formatted]))).
    { apply filter_In. split; [| exact Hf].
      right. apply in_or_app. right. now left. }
    rewrite Hparts in Hin. exact Hin.
  - cbn [List.length Nat.ltb Nat.leb map].
    apply concat_not_empty. apply truthy_str.
    assert (Hin : In h (h :: parts)) by now left.
    rewrite <- Hparts in Hin. apply filter_In in Hin as [_ Hh]. exact Hh.
Qed.

(** X17: the name under which the program presents itself is never
    empty, whatever the environment, the arguments and the file system
    are. *)
Theorem deriveInvocationCommand_not_empty (pr : Process) :
  deriveInvocationCommand pr <> "".
Proof.
  unfold deriveInvocationCommand.
  destruct (Js.truthy (env_npm_lifecycle_script pr)) eqn:Hnpm.
  { now apply truthy_str. }
  set (scriptPath := nth_error (argv pr) 1).
  set (formatted := if Js.truthy scriptPath
                    then Some (formatScriptPath pr (str scriptPath))
                    else None).
  assert (Hfmt : formatted = None \/ Js.truthy formatted = true).
  { unfold formatted. destruct (Js.truthy scriptPath) eqn:Hs; [| now left].
    right. apply truthy_some, formatScriptPath_not_empty.
    now apply truthy_str. }
  destruct (Js.truthy (env_underscore pr)) eqn:Henv; cbn [andb].
  - destruct (Js.truthy formatted) eqn:Hf; cbn [andb negb].
    + destruct (includes _ _); [now apply truthy_str |].
      destruct (matches_ts_node _); [discriminate |].
      destruct (Js.truthy scriptPath && true && _ && _);
        [now apply truthy_str |].
      apply deriveInvocationCommand_parts. right. exact Hf.
    + destruct (negb (_ =? _)%string); [now apply truthy_str |].
      rewrite andb_false_r. cbn [andb].
      apply deriveInvocationCommand_parts.
      destruct Hfmt as [H0 | H0]; [left; exact H0 | discriminate].
  - destruct (Js.truthy scriptPath && Js.truthy formatted && _ && _) eqn:Hx.
    + apply truthy_str.
      apply andb_prop in Hx as [Hx _]. apply andb_prop in Hx as [Hx _].
      apply andb_prop in Hx as [_ Hx]. exact Hx.
    + apply deriveInvocationCommand_parts; assumption.
Qed.

(** *** The script that only validates its input *)

(** X18: the script that only validates its input ends with status 0
    exactly when it prints the help (neither file nor song name) or when
    the file exists and has a supported extension; for a song name without
    a file, a missing file or another extension it exits with status 1.
    It never converts, uploads or requests anything. *)
Theorem validation_script_outcome `{path : NodePath} (w : World) (s : State) :
  exit_status (fst (validation_script w s)) =
  Some (if (negb (Js.truthy (selected_file w))
            && negb (Js.truthy (opt_song w)))
           || (Js.truthy (selected_file w)
               && existsSync w (str (selected_file w))
               && isSupportedAudioFile (str (selected_file w)))
        then 0 else 1) /\
  filter is_stage (events (snd (validation_script w s)))
  = filter is_stage (events s).
Proof.
  unfold validation_script, when, bind, program_help, process_exit, emit, ret.
  destruct (Js.truthy (selected_file w)), (Js.truthy (opt_song w));
    cbn [negb andb orb fst snd exit_status];
    try (destruct (existsSync w _); cbn [negb andb fst snd exit_status]);
    try (destruct (isSupportedAudioFile _);
         cbn [negb andb fst snd exit_status]);
    split; try reflexivity.
  unfold bind, events. cbn [trace snd]. rewrite map_app, filter_app. cbn.
  apply app_nil_r.
Qed.

(** *** index.ts: a run that succeeds *)


